(** * Verification of the folder synchroniser [VeeamTask.py]

    The development embeds the core of the program: the content
    fingerprints ([calculate_md5], [calculate_folder_md5]), the copier
    ([copy_files]), the pruner ([remove_files]) and the synchroniser
    ([sync_folders]).

    Modelling conventions.
    - A directory tree is a [node]; the listing order of a directory
      ([os.listdir], [os.walk]) is the order of its entry list.
    - The source tree and the replica tree are distinct, non-nested
      locations: a pass reads the source and only writes the replica.
      The replica is threaded through every operation as explicit state,
      and survives an exception (type [out]).
    - Modification times are integers.  Creating or deleting an entry
      stamps the enclosing directory with the current time, read from an
      arbitrary clock [clock : nat -> Z] indexed by the number of
      mutations performed so far.
    - Only regular files and directories exist, and every file is
      readable; the exceptions left are those caused by a path being of
      the wrong kind or missing.
    - [hashlib.md5] is embedded bit for bit (module [MD5]). *)

From Stdlib Require Import List String Ascii NArith ZArith Bool Lia.
From Stdlib Require Import Permutation Sorted.
Import ListNotations.
Local Open Scope string_scope.
Local Open Scope list_scope.

(** ** MD5 (RFC 1321), as computed by [hashlib.md5(...).hexdigest()] *)

Module MD5.
Local Open Scope list_scope.
Local Open Scope N_scope.

Definition mask32 : N := 0xffffffff.
Definition add32 (a b : N) : N := N.land (a + b) mask32.
Definition not32 (a : N) : N := N.lxor a mask32.
Definition rotl32 (x c : N) : N :=
  N.lor (N.land (N.shiftl x c) mask32) (N.shiftr x (32 - c)).

Definition K : list N :=
  [ 0xd76aa478; 0xe8c7b756; 0x242070db; 0xc1bdceee;
    0xf57c0faf; 0x4787c62a; 0xa8304613; 0xfd469501;
    0x698098d8; 0x8b44f7af; 0xffff5bb1; 0x895cd7be;
    0x6b901122; 0xfd987193; 0xa679438e; 0x49b40821;
    0xf61e2562; 0xc040b340; 0x265e5a51; 0xe9b6c7aa;
    0xd62f105d; 0x02441453; 0xd8a1e681; 0xe7d3fbc8;
    0x21e1cde6; 0xc33707d6; 0xf4d50d87; 0x455a14ed;
    0xa9e3e905; 0xfcefa3f8; 0x676f02d9; 0x8d2a4c8a;
    0xfffa3942; 0x8771f681; 0x6d9d6122; 0xfde5380c;
    0xa4beea44; 0x4bdecfa9; 0xf6bb4b60; 0xbebfbc70;
    0x289b7ec6; 0xeaa127fa; 0xd4ef3085; 0x04881d05;
    0xd9d4d039; 0xe6db99e5; 0x1fa27cf8; 0xc4ac5665;
    0xf4292244; 0x432aff97; 0xab9423a7; 0xfc93a039;
    0x655b59c3; 0x8f0ccc92; 0xffeff47d; 0x85845dd1;
    0x6fa87e4f; 0xfe2ce6e0; 0xa3014314; 0x4e0811a1;
    0xf7537e82; 0xbd3af235; 0x2ad7d2bb; 0xeb86d391 ].

Definition R : list N :=
  [ 7; 12; 17; 22; 7; 12; 17; 22; 7; 12; 17; 22; 7; 12; 17; 22;
    5; 9; 14; 20; 5; 9; 14; 20; 5; 9; 14; 20; 5; 9; 14; 20;
    4; 11; 16; 23; 4; 11; 16; 23; 4; 11; 16; 23; 4; 11; 16; 23;
    6; 10; 15; 21; 6; 10; 15; 21; 6; 10; 15; 21; 6; 10; 15; 21 ].

Definition getN (l : list N) (i : N) : N := nth (N.to_nat i) l 0.

Record regs := Regs { rA : N; rB : N; rC : N; rD : N }.

Definition init : regs :=
  Regs 0x67452301 0xefcdab89 0x98badcfe 0x10325476.

Definition round (M : list N) (r : regs) (i : N) : regs :=
  let '(Regs a b c d) := r in
  let '(f, g) :=
    if i <? 16 then (N.lor (N.land b c) (N.land (not32 b) d), i)
    else if i <? 32 then
      (N.lor (N.land d b) (N.land (not32 d) c), (5 * i + 1) mod 16)
    else if i <? 48 then (N.lxor b (N.lxor c d), (3 * i + 5) mod 16)
    else (N.lxor c (N.lor b (not32 d)), (7 * i) mod 16) in
  let f' := add32 (add32 (add32 f a) (getN K i)) (getN M g) in
  Regs d (add32 b (rotl32 f' (getN R i))) b c.

Definition indices : list N := map N.of_nat (seq 0 64).

Fixpoint words (bs : list N) : list N :=
  match bs with
  | b0 :: b1 :: b2 :: b3 :: rest =>
      (b0 + 256 * (b1 + 256 * (b2 + 256 * b3))) :: words rest
  | _ => []
  end.

Definition compress (r : regs) (block : list N) : regs :=
  let r' := fold_left (round (words block)) indices r in
  Regs (add32 (rA r) (rA r')) (add32 (rB r) (rB r'))
       (add32 (rC r) (rC r')) (add32 (rD r) (rD r')).

Fixpoint le_bytes (n : nat) (x : N) : list N :=
  match n with
  | O => []
  | S n' => (x mod 256) :: le_bytes n' (x / 256)
  end.

Definition pad (bs : list N) : list N :=
  let len := N.of_nat (List.length bs) in
  let zeros := N.to_nat ((64 + 55 - len mod 64) mod 64) in
  bs ++ [0x80] ++ repeat 0 zeros ++ le_bytes 8 ((8 * len) mod 2 ^ 64).

Fixpoint blocks (fuel : nat) (bs : list N) (r : regs) : regs :=
  match fuel with
  | O => r
  | S fuel' =>
      match bs with
      | [] => r
      | _ => blocks fuel' (skipn 64 bs) (compress r (firstn 64 bs))
      end
  end.

Definition hex_digit (n : N) : ascii :=
  if n <? 10 then ascii_of_N (48 + n) else ascii_of_N (87 + n).

Fixpoint hex_bytes (bs : list N) : string :=
  match bs with
  | [] => EmptyString
  | b :: rest =>
      String (hex_digit (b / 16)) (String (hex_digit (b mod 16)) (hex_bytes rest))
  end.

Definition digest_bytes (s : string) : list N :=
  let bs := pad (map N_of_ascii (list_ascii_of_string s)) in
  let r := blocks (List.length bs) bs init in
  le_bytes 4 (rA r) ++ le_bytes 4 (rB r) ++ le_bytes 4 (rC r) ++ le_bytes 4 (rD r).

Definition hexdigest (s : string) : string := hex_bytes (digest_bytes s).
End MD5.

Arguments MD5.hexdigest : simpl never.

(** A [hashlib] hash object: [update] appends to the input consumed so
    far, [hexdigest] hashes all of it. *)
Module Hashlib.
Definition hash := string.
Definition md5 : hash := "".
Definition update (h : hash) (data : string) : hash := (h ++ data)%string.
Definition hexdigest (h : hash) : string := MD5.hexdigest h.
End Hashlib.

(** ** The file system *)

#[warnings="-register-all"] Inductive node : Type :=
| File (content : string) (mtime : Z)
| Dir (mtime : Z) (entries : list (string * node)).

(** Paths are lists of components below the root being synchronised. *)
Definition path := list string.

Definition getmtime (n : node) : Z :=
  match n with
  | File _ m => m
  | Dir m _ => m
  end.

Definition listdir (entries : list (string * node)) : list string :=
  map fst entries.

Fixpoint lookup (name : string) (entries : list (string * node)) : option node :=
  match entries with
  | [] => None
  | (n, c) :: rest => if String.eqb n name then Some c else lookup name rest
  end.

(** [set] writes an entry in place, or adds it at the end of the listing. *)
Fixpoint set (name : string) (v : node) (entries : list (string * node))
  : list (string * node) :=
  match entries with
  | [] => [(name, v)]
  | (n, c) :: rest =>
      if String.eqb n name then (n, v) :: rest else (n, c) :: set name v rest
  end.

Fixpoint remove (name : string) (entries : list (string * node))
  : list (string * node) :=
  match entries with
  | [] => []
  | (n, c) :: rest =>
      if String.eqb n name then rest else (n, c) :: remove name rest
  end.

Definition is_dir (n : node) : bool :=
  match n with Dir _ _ => true | File _ _ => false end.

(** What [os.walk] hands out for one directory: the names of its
    sub-directories and the names of everything else, in listing order. *)
Definition dirnames (entries : list (string * node)) : list string :=
  map fst (filter (fun e => is_dir (snd e)) entries).

Definition filenames (entries : list (string * node)) : list string :=
  map fst (filter (fun e => negb (is_dir (snd e))) entries).

(** Well-formed trees: the names of a directory are pairwise distinct. *)
Fixpoint wf (n : node) : Prop :=
  match n with
  | File _ _ => True
  | Dir _ es =>
      NoDup (map fst es) /\
      (fix all (l : list (string * node)) : Prop :=
         match l with
         | [] => True
         | (_, c) :: l' => wf c /\ all l'
         end) es
  end.

(** ** Content fingerprints *)

Fixpoint take (n : nat) (s : string) : string :=
  match n, s with
  | S n', String a s' => String a (take n' s')
  | _, _ => EmptyString
  end.

Fixpoint drop (n : nat) (s : string) : string :=
  match n, s with
  | S n', String _ s' => drop n' s'
  | _, _ => s
  end.

(** [for chunk in iter(lambda: f.read(4096), b""): hash_md5.update(chunk)];
    [f] is what is left to read.  Every non-empty chunk consumes input, so
    [String.length f] rounds after the first suffice. *)
Fixpoint read_chunks (fuel : nat) (f : string) (hash_md5 : Hashlib.hash)
  : Hashlib.hash :=
  match fuel with
  | O => hash_md5
  | S fuel' =>
      let chunk := take 4096 f in
      if String.eqb chunk "" then hash_md5
      else read_chunks fuel' (drop 4096 f) (Hashlib.update hash_md5 chunk)
  end.

Definition calculate_md5 (file : string) : string :=
  let hash_md5 := Hashlib.md5 in
  Hashlib.hexdigest (read_chunks (S (String.length file)) file hash_md5).

(** [list.sort()] on names: insertion sort for the byte-wise order, which
    on UTF-8 names is Python's code point order. *)
Fixpoint insert (x : string) (l : list string) : list string :=
  match l with
  | [] => [x]
  | y :: l' => if String.leb x y then x :: y :: l' else y :: insert x l'
  end.

Fixpoint sort (l : list string) : list string :=
  match l with
  | [] => []
  | x :: l' => insert x (sort l')
  end.

(** [os.path.relpath(file_path, folder)] *)
Definition relpath (p : path) : string := String.concat "/" p.

(** [os.walk(top)], top-down.  The loop body of the caller is [body]: it
    receives the directory path, the two name lists, and its own state;
    it returns the list [dirnames] as it left it (the caller may reorder
    it in place, and [os.walk] descends in that order) and its new state.
    The entries of the directory are passed along so that the body can
    read the files it is given.  Walking something that is not a
    directory yields nothing. *)
Section Walk.
Context {S : Type}.
Variable body :
  path -> list (string * node) -> list string -> list string -> S -> list string * S.

Fixpoint os_walk (top : path) (t : node) (s : S) {struct t} : S :=
  match t with
  | File _ _ => s
  | Dir _ es =>
      let '(dirs, s1) := body top es (dirnames es) (filenames es) s in
      fold_left
        (fun acc d =>
           (fix descend (l : list (string * node)) : S :=
              match l with
              | [] => acc
              | (n, c) :: l' =>
                  if String.eqb n d then os_walk (top ++ [d]) c acc
                  else descend l'
              end) es)
        dirs s1
  end.
End Walk.

Definition hash_file (dirpath : path) (es : list (string * node))
  (md5_hash : Hashlib.hash) (filename : string) : Hashlib.hash :=
  let file_path := dirpath ++ [filename] in
  match lookup filename es with
  | Some (File content _) =>
      let file_md5 := calculate_md5 content in
      let relative_path := relpath file_path in
      Hashlib.update (Hashlib.update md5_hash relative_path) file_md5
  | _ => md5_hash
  end.

Definition folder_body (dirpath : path) (es : list (string * node))
  (dirnames filenames : list string) (md5_hash : Hashlib.hash)
  : list string * Hashlib.hash :=
  let dirnames := sort dirnames in
  let filenames := sort filenames in
  (dirnames, fold_left (hash_file dirpath es) filenames md5_hash).

(** [folder] is what is at the path: nothing, a file or a directory. *)
Definition calculate_folder_md5 (folder : option node) : string :=
  let md5_hash := Hashlib.md5 in
  Hashlib.hexdigest
    match folder with
    | None => md5_hash
    | Some t => os_walk folder_body [] t md5_hash
    end.

(** ** Events, exceptions and outcomes *)

(** One constructor per [logging.info] message of the core.  The path is
    relative: it stands for the replica path of the message and, for the
    copy events, for the source path as well. *)
Inductive event : Type :=
| CreatingFolder (replica : path)
| NoUpdatesNeeded (replica : path)
| SyncFolder (replica : path)
| CopiedFile (item : string) (replica_path : path)
| CopiedLatest (item : string) (replica_path : path)
| RemovedFolder (item : string) (replica_path : path)
| RemovedFile (item : string) (replica_path : path).

Inductive exn : Type :=
| FileNotFoundError
| NotADirectoryError
| IsADirectoryError.

(** The outcome of running a piece of the program: the replica state it
    left behind, the number of mutations performed so far, the events
    logged, and the exception in flight, if any. *)
Record out (T : Type) : Type := Out {
  fs : T;
  tick : nat;
  log : list event;
  raised : option exn
}.
Arguments Out {T} _ _ _ _.
Arguments fs {T} _.
Arguments tick {T} _.
Arguments log {T} _.
Arguments raised {T} _.

Definition ret {T} (st : T) (t : nat) : out T := Out st t [] None.
Definition raise {T} (e : exn) (st : T) (t : nat) : out T := Out st t [] (Some e).
Definition info {T} (ev : event) (st : T) (t : nat) : out T := Out st t [ev] None.

(** Sequencing: the continuation runs unless an exception is in flight. *)
Definition and_then {T U} (o : out T) (lift : T -> U) (k : T -> nat -> out U)
  : out U :=
  match raised o with
  | Some e => Out (lift (fs o)) (tick o) (log o) (Some e)
  | None =>
      let o' := k (fs o) (tick o) in
      Out (fs o') (tick o') (log o ++ log o') (raised o')
  end.

Notation "o >> k" := (and_then o (fun st => st) k)
  (at level 50, left associativity).

(** [for a in l: body(a)] over a threaded state. *)
Section ForEach.
Context {A T : Type}.
Variable body : A -> T -> nat -> out T.

Fixpoint for_each (l : list A) (st : T) (t : nat) : out T :=
  match l with
  | [] => ret st t
  | a :: l' => body a st t >> for_each l'
  end.
End ForEach.

Definition is_copy (ev : event) : bool :=
  match ev with
  | CopiedFile _ _ | CopiedLatest _ _ => true
  | _ => false
  end.

Definition is_removal (ev : event) : bool :=
  match ev with
  | RemovedFolder _ _ | RemovedFile _ _ => true
  | _ => false
  end.

(** ** The synchroniser *)

Section Sync.
(** The time at the [n]-th mutation of the replica. *)
Variable clock : nat -> Z.

(** Lines 176-178: [os.makedirs(replica)] when nothing is there. *)
Definition ensure_replica (p : path) (replica : option node) (t : nat)
  : out node :=
  match replica with
  | None => info (CreatingFolder p) (Dir (clock t) []) (S t)
  | Some r => ret r t
  end.

Section Copy.
(** [sync_folders], for the recursive call of line 127. *)
Variable sync : node -> path -> option node -> nat -> out (option node).

(** The body of the loop of [copy_files] for one [item] of the source
    listing; [s] is what is at [source_path], [replica] is what is at
    the path [replica] of the call. *)
Definition copy_item (p : path) (e : string * node) (replica : node)
  (t : nat) : out node :=
  let '(item, s) := e in
  let replica_path := p ++ [item] in
  match replica with
  | File _ _ =>
      (* nothing exists below a file: [shutil.copy2], or the
         [os.makedirs] of the recursive call, fails *)
      raise NotADirectoryError replica t
  | Dir rm res =>
      match s with
      | File c m =>
          match lookup item res with
          | None =>
              info (CopiedFile item replica_path)
                (Dir (clock t) (set item (File c m) res)) (S t)
          | Some (File c' m') =>
              if (m' <? m)%Z then
                if negb (String.eqb (calculate_md5 c) (calculate_md5 c'))
                then info (CopiedLatest item replica_path)
                       (Dir rm (set item (File c m) res)) t
                else ret replica t
              else ret replica t
          | Some (Dir m' _) =>
              if (m' <? m)%Z then raise IsADirectoryError replica t
              else ret replica t
          end
      | Dir _ _ =>
          let o := sync s replica_path (lookup item res) t in
          let rm' := match lookup item res with
                     | None => clock t
                     | Some _ => rm
                     end in
          let res' := match fs o with
                      | Some child => set item child res
                      | None => res
                      end in
          Out (Dir rm' res') (tick o) (log o) (raised o)
      end
  end.

Definition copy_files_with (p : path) (source : list (string * node))
  : node -> nat -> out node :=
  for_each (copy_item p) source.
End Copy.

(** [os.path.exists(os.path.join(source, item))] *)
Definition child_exists (source : node) (item : string) : bool :=
  match source with
  | Dir _ es => match lookup item es with Some _ => true | None => false end
  | File _ _ => false
  end.

(** The body of the loop of [remove_files] for one [item] of the
    replica listing. *)
Definition remove_item (source : node) (p : path) (item : string)
  (replica : node) (t : nat) : out node :=
  let replica_path := p ++ [item] in
  if child_exists source item then ret replica t
  else
    match replica with
    | File _ _ => raise FileNotFoundError replica t
    | Dir _ res =>
        match lookup item res with
        | Some (Dir _ _) =>
            info (RemovedFolder item replica_path)
              (Dir (clock t) (remove item res)) (S t)
        | Some (File _ _) =>
            info (RemovedFile item replica_path)
              (Dir (clock t) (remove item res)) (S t)
        | None => raise FileNotFoundError replica t
        end
    end.

Definition remove_files (source : node) (p : path) (replica : node)
  (t : nat) : out node :=
  match replica with
  | File _ _ => raise NotADirectoryError replica t
  | Dir _ res => for_each (remove_item source p) (listdir res) replica t
  end.

(** Lines 180-183: the test that ends the call early. *)
Definition up_to_date (source replica : node) : bool :=
  (getmtime source <=? getmtime replica)%Z &&
  String.eqb (calculate_folder_md5 (Some source))
             (calculate_folder_md5 (Some replica)).

(** [sync_folders(source, replica)] for a source path that exists; [p]
    is the position of the pair below the two roots. *)
Fixpoint sync_folders (source : node) (p : path) (replica : option node)
  (t : nat) {struct source} : out (option node) :=
  and_then (ensure_replica p replica t) Some
    (fun r t =>
       if up_to_date source r then
         and_then (info (NoUpdatesNeeded p) r t) Some (fun r t => ret (Some r) t)
       else
         and_then
           (info (SyncFolder p) r t >>
            (fun r t =>
               match source with
               | File _ _ => raise NotADirectoryError r t
               | Dir _ es => copy_files_with sync_folders p es r t
               end) >>
            remove_files source p)
           Some (fun r t => ret (Some r) t)).

Definition copy_files (p : path) (source : list (string * node))
  : node -> nat -> out node :=
  copy_files_with sync_folders p source.

(** The call made by [main]: the source path may not exist, in which
    case [os.path.getmtime(source)] raises. *)
Definition sync (source replica : option node) (t : nat)
  : out (option node) :=
  match source with
  | Some s => sync_folders s [] replica t
  | None =>
      and_then (ensure_replica [] replica t) Some
        (fun r t => raise FileNotFoundError (Some r) t)
  end.
End Sync.

(** ** Vocabulary of the statements *)

Definition entries (n : node) : list (string * node) :=
  match n with
  | Dir _ es => es
  | File _ _ => []
  end.

(** A tree without any file, at any depth. *)
Fixpoint only_dirs (n : node) : bool :=
  match n with
  | File _ _ => false
  | Dir _ es => forallb (fun e => only_dirs (snd e)) es
  end.

(** The event logged by [remove_files] for a deleted entry. *)
Definition removal_event (p : path) (e : string * node) : event :=
  if is_dir (snd e) then RemovedFolder (fst e) (p ++ [fst e])
  else RemovedFile (fst e) (p ++ [fst e]).

(** The replica entries that [remove_files] leaves in place. *)
Definition kept (source : node) (e : string * node) : bool :=
  child_exists source (fst e).

(** The path an event is about. *)
Definition ev_path (ev : event) : path :=
  match ev with
  | CreatingFolder q | NoUpdatesNeeded q | SyncFolder q => q
  | CopiedFile _ q | CopiedLatest _ q => q
  | RemovedFolder _ q | RemovedFile _ q => q
  end.

(** An event of the pass over the pair at [q]: it is about [q] or a
    path below it, strictly below for a copy or a removal. *)
Definition within (q : path) (ev : event) : Prop :=
  exists suffix,
    ev_path ev = q ++ suffix /\
    (is_copy ev || is_removal ev = true -> suffix <> []).

Arguments calculate_md5 : simpl never.
Arguments calculate_folder_md5 : simpl never.
Arguments up_to_date : simpl never.

(** An event about [q] or about a path below [q]. *)
Definition below (q : path) (ev : event) : Prop :=
  exists suffix, ev_path ev = q ++ suffix.

(** Specification side of the traversal contract (spec section 4.1):
    the pairs [(relativePathFromRoot, fileDigest(file))] in depth-first
    pre-order, the files of a directory in lexicographic order of their
    names first, then its sub-directories in lexicographic order of
    theirs, each one completely before the next. *)
Fixpoint spec_preorder (dirpath : path) (t : node) : list (path * string) :=
  match t with
  | File _ _ => []
  | Dir _ es =>
      flat_map
        (fun f =>
           match lookup f es with
           | Some (File content _) => [(dirpath ++ [f], calculate_md5 content)]
           | _ => []
           end)
        (sort (filenames es))
      ++
      flat_map
        (fun d =>
           (fix descend (l : list (string * node)) : list (path * string) :=
              match l with
              | [] => []
              | (n, c) :: l' =>
                  if String.eqb n d then spec_preorder (dirpath ++ [d]) c
                  else descend l'
              end) es)
        (sort (dirnames es))
  end.

(** Folding one pair into the running hash. *)
Definition fold_pair (h : Hashlib.hash) (pr : path * string) : Hashlib.hash :=
  Hashlib.update (Hashlib.update h (relpath (fst pr))) (snd pr).

(** The content of the file at a relative path, if there is a file. *)
Fixpoint file_at (t : node) (p : path) : option string :=
  match p, t with
  | [], File content _ => Some content
  | n :: p', Dir _ es =>
      match lookup n es with
      | Some c => file_at c p'
      | None => None
      end
  | _, _ => None
  end.

(** Whether [copy_files] copies the source file with content [c] and
    modification time [fm] over what the replica has under its name. *)
Definition stale (c : string) (fm : Z) (old : option node) : bool :=
  match old with
  | None => true
  | Some (File c' fm') =>
      (fm' <? fm)%Z && negb (String.eqb (calculate_md5 c) (calculate_md5 c'))
  | Some (Dir _ _) => false
  end.

(** Neither a copy nor a removal. *)
Definition quiet (ev : event) : Prop :=
  is_copy ev = false /\ is_removal ev = false.

(** A replica on which a pass over the pair at [p] changes nothing and
    logs neither a copy nor a removal. *)
Definition settled (clock : nat -> Z) (source : node) (p : path) (r : node)
  : Prop :=
  forall t,
    let o := sync_folders clock source p (Some r) t in
    fs o = Some r /\ tick o = t /\ raised o = None /\ Forall quiet (log o).

(** What is at a relative path, if anything. *)
Fixpoint node_at (t : node) (p : path) : option node :=
  match p with
  | [] => Some t
  | n :: p' =>
      match t with
      | Dir _ es =>
          match lookup n es with
          | Some c => node_at c p'
          | None => None
          end
      | File _ _ => None
      end
  end.

(** ** Concrete trees used in the examples *)

(** A clock that starts at 100 and advances by one at each mutation. *)
Definition wall_clock (n : nat) : Z := 100 + Z.of_nat n.

(** A source file older than a different replica file, and a replica
    directory that has gained an empty sub-directory. *)
Definition older_source : node :=
  Dir 10 [("a.txt", File "new" 1); ("d", Dir 1 [])].
Definition newer_replica : node :=
  Dir 5 [("a.txt", File "old" 5); ("d", Dir 2 [("stale", Dir 0 [])])].

(** An empty source and a replica that holds one empty directory. *)
Definition empty_source : node := Dir 1 [].
Definition cluttered_replica : node := Dir 2 [("stale", Dir 0 [])].

(** Two files, and one file whose name is the digest input of the two:
    ["a"], the MD5 of ["x"], ["b"]. *)
Definition two_files : node :=
  Dir 0 [("a", File "x" 0); ("b", File "y" 0)].
Definition one_file : node :=
  Dir 0 [("a9dd4e461268c8034f5c8564e155c67a6b", File "y" 0)].

(** The same files in another listing order, with other modification
    times, and with directories that hold no file. *)
Definition two_files_and_dirs : node :=
  Dir 1 [("b", File "y" 3); ("e", Dir 0 [("k", Dir 0 [])]); ("a", File "x" 2)].

(** A source whose directory [d] lists an empty directory, then a file
    that the replica has as a directory; and a replica of [d] whose only
    file has the digest input of [d]'s two files as its name. *)
Definition retried_source : node :=
  Dir 30 [("d", Dir 10 [("e", Dir 1 []); ("a", File "x" 5); ("b", File "y" 5)]);
          ("z", File "new" 5)].
Definition retried_replica : node :=
  Dir 3 [("d", Dir 2 [("a", Dir 1 []);
                      ("a9dd4e461268c8034f5c8564e155c67a6b", File "y" 1)])].

(** A source with a file, a directory and a nested file. *)
Definition small_source : node :=
  Dir 5 [("b", File "y" 1);
         ("d", Dir 2 [("z", File "q" 1); ("e", Dir 1 [])]);
         ("a", File "x" 1)].

(** A replica with a directory where the source has a file. *)
Definition clashing_replica : node :=
  Dir 1 [("a", Dir 0 []); ("q", File "" 0)].

(** A replica with an outdated file, a file of its own, and a file that
    is not older than the source's. *)
Definition lagging_replica : node :=
  Dir 1 [("a", File "old" 0); ("q", File "" 0); ("b", File "y" 7)].

(** An event that records a change of the replica. *)
Definition is_mutation (ev : event) : bool :=
  match ev with
  | CreatingFolder _ => true
  | NoUpdatesNeeded _ | SyncFolder _ => false
  | _ => is_copy ev || is_removal ev
  end.

(** ** The run boundary *)

(** The records of the log of [main]: its own messages, the events of
    the core, and the three [logging.error] messages of its handlers. *)
Inductive record : Type :=
| Starting
| Core (ev : event)
| Completed
| FileNotFoundLogged
| PermissionLogged
| ExceptionLogged.

(** The [except] clause that catches an exception of the core.
    [NotADirectoryError] and [IsADirectoryError] are neither
    [FileNotFoundError] nor [PermissionError]: they reach
    [except Exception]. *)
Definition handler (e : exn) : record :=
  match e with
  | FileNotFoundError => FileNotFoundLogged
  | NotADirectoryError | IsADirectoryError => ExceptionLogged
  end.

(** One iteration of the loop of [main]: the [try] block and its
    handlers ([time.sleep] changes nothing that is modelled).  No
    exception leaves it. *)
Definition main_pass (clock : nat -> Z) (source replica : option node) (t : nat)
  : option node * nat * list record :=
  let o := sync clock source replica t in
  (fs o, tick o,
   Starting :: map Core (log o) ++
   [match raised o with
    | None => Completed
    | Some e => handler e
    end]).

(** The first iterations of [while True], one for each element of
    [sources]: what is at the source path when that iteration starts. *)
Fixpoint main_loop (clock : nat -> Z) (sources : list (option node))
  (replica : option node) (t : nat) : option node * nat * list record :=
  match sources with
  | [] => (replica, t, [])
  | source :: rest =>
      let '(replica1, t1, log1) := main_pass clock source replica t in
      let '(replica2, t2, log2) := main_loop clock rest replica1 t1 in
      (replica2, t2, log1 ++ log2)
  end.

(** A record that reports neither an error nor a copy nor a removal. *)
Definition calm (r : record) : Prop :=
  match r with
  | Starting | Completed => True
  | Core ev => quiet ev
  | _ => False
  end.

(** No directory of the tree that holds a file somewhere has the digest
    of the empty input. *)
Fixpoint digest_shows_files (t : node) : bool :=
  match t with
  | File _ _ => true
  | Dir _ es =>
      (only_dirs t ||
       negb (String.eqb (calculate_folder_md5 (Some t)) (calculate_folder_md5 None)))
      && forallb (fun e => digest_shows_files (snd e)) es
  end.

(** A fresh mirror of [source]: what a pass into nothing leaves. *)
Definition mirrored (clock : nat -> Z) (source : node) : Prop :=
  forall p t,
    raised (sync_folders clock source p None t) = None /\
    exists r, fs (sync_folders clock source p None t) = Some r /\
              is_dir r = true /\
              forall q, file_at r q = file_at source q.


(** Names in ascending order. *)
Definition ascending : list string -> Prop :=
  StronglySorted (fun a b => String.leb a b = true).

(** ** Induction on trees *)

Section NodeInduction.
Variable P : node -> Prop.
Hypothesis P_File : forall c m, P (File c m).
Hypothesis P_Dir : forall m es, Forall (fun e => P (snd e)) es -> P (Dir m es).

Fixpoint node_induction (n : node) : P n :=
  match n with
  | File c m => P_File c m
  | Dir m es =>
      P_Dir m es
        ((fix all (l : list (string * node)) : Forall (fun e => P (snd e)) l :=
            match l with
            | [] => Forall_nil _
            | e :: l' => Forall_cons e (node_induction (snd e)) (all l')
            end) es)
  end.
End NodeInduction.


(** * Properties *)

(** ** Tactics *)

Ltac out_simpl := cbn [fs tick log raised info ret raise entries].
Ltac break_ifs :=
  out_simpl;
  repeat match goal with
         | |- context [if ?b then _ else _] => destruct b
         end;
  out_simpl.

Ltac wf_tac :=
  vm_compute;
  repeat match goal with
         | |- _ /\ _ => split
         | |- True => exact I
         | |- NoDup _ => constructor
         | |- ~ _ => cbn [In]; intuition discriminate
         | |- _ -> False => intuition discriminate
         end.



Lemma wf_Dir m es :
  wf (Dir m es) <-> NoDup (map fst es) /\ Forall (fun e => wf (snd e)) es.
Proof.
  simpl. split; intros [H1 H2]; split; auto.
  - induction es as [|[n c] es IH]; constructor.
    + apply H2.
    + apply IH; [now inversion H1 | apply H2].
  - induction es as [|[n c] es IH]; [exact I|].
    inversion H2; subst. split; [assumption|].
    apply IH; [now inversion H1 | assumption].
Qed.

(** ** Entry lists *)

Lemma lookup_In name es c : lookup name es = Some c -> In (name, c) es.
Proof.
  induction es as [|[n d] es IH]; simpl; [discriminate|].
  destruct (String.eqb_spec n name) as [->|Hn].
  - intros [= ->]. now left.
  - intros H. right. now apply IH.
Qed.

Lemma lookup_None name es : lookup name es = None <-> ~ In name (listdir es).
Proof.
  induction es as [|[n d] es IH]; simpl.
  - split; [intros _ [] | reflexivity].
  - destruct (String.eqb_spec n name) as [->|Hn].
    + split; [discriminate | intros H; exfalso; apply H; now left].
    + rewrite IH. split; intros H; [intros [E|E]; [now apply Hn | now apply H] | tauto].
Qed.

Lemma lookup_Some_listed name es c :
  lookup name es = Some c -> In name (listdir es).
Proof.
  intros H. apply lookup_In in H. now apply (in_map fst) in H.
Qed.

Lemma In_lookup name c es :
  NoDup (listdir es) -> In (name, c) es -> lookup name es = Some c.
Proof.
  induction es as [|[n d] es IH]; simpl; [intros _ []|].
  intros Hnd [E|E].
  - inversion E; subst. now rewrite String.eqb_refl.
  - inversion Hnd as [|? ? Hn Hnd']; subst.
    destruct (String.eqb_spec n name) as [->|Hne].
    + exfalso. apply Hn. now apply (in_map fst) in E.
    + now apply IH.
Qed.

Lemma lookup_app name l1 l2 :
  lookup name (l1 ++ l2) =
  match lookup name l1 with Some c => Some c | None => lookup name l2 end.
Proof.
  induction l1 as [|[n d] l1 IH]; simpl; [reflexivity|].
  now destruct (String.eqb n name).
Qed.

Lemma lookup_set_same name v es : lookup name (set name v es) = Some v.
Proof.
  induction es as [|[n d] es IH]; simpl.
  - now rewrite String.eqb_refl.
  - destruct (String.eqb n name) eqn:E; simpl; now rewrite E.
Qed.

Lemma lookup_set_other name name' v es :
  name <> name' -> lookup name' (set name v es) = lookup name' es.
Proof.
  intros Hne. induction es as [|[n d] es IH]; simpl.
  - destruct (String.eqb_spec name name'); [contradiction | reflexivity].
  - destruct (String.eqb_spec n name) as [->|Hn]; simpl.
    + destruct (String.eqb_spec name name'); [contradiction | reflexivity].
    + now rewrite IH.
Qed.

Lemma set_lookup name v es : lookup name es = Some v -> set name v es = es.
Proof.
  induction es as [|[n d] es IH]; simpl; [discriminate|].
  destruct (String.eqb n name).
  - now intros [= ->].
  - intros H. now rewrite IH.
Qed.

Lemma listdir_set name v es :
  forall x, In x (listdir es) -> In x (listdir (set name v es)).
Proof.
  induction es as [|[n d] es IH]; simpl; [intros _ []|].
  intros x [E|E]; destruct (String.eqb n name); simpl; auto.
Qed.

(** ** Outcomes *)

Lemma and_then_raised {T U} (o : out T) (lift : T -> U) k e :
  raised o = Some e ->
  and_then o lift k = Out (lift (fs o)) (tick o) (log o) (Some e).
Proof. unfold and_then. now intros ->. Qed.

Lemma and_then_ok {T U} (o : out T) (lift : T -> U) k :
  raised o = None ->
  and_then o lift k =
  Out (fs (k (fs o) (tick o))) (tick (k (fs o) (tick o)))
      (log o ++ log (k (fs o) (tick o))) (raised (k (fs o) (tick o))).
Proof. unfold and_then. now intros ->. Qed.

Lemma for_each_cons {A T} (body : A -> T -> nat -> out T) a l st t :
  for_each body (a :: l) st t = body a st t >> for_each body l.
Proof. reflexivity. Qed.

(** An invariant of the loop body that holds of the state and of every
    event is an invariant of the loop. *)
Lemma for_each_invariant {A T} (body : A -> T -> nat -> out T)
  (I : T -> Prop) (L : event -> Prop) l :
  (forall a st t, In a l -> I st ->
     I (fs (body a st t)) /\ Forall L (log (body a st t))) ->
  forall st t, I st ->
    I (fs (for_each body l st t)) /\ Forall L (log (for_each body l st t)).
Proof.
  induction l as [|a l IH]; intros Hb st t Hst.
  - simpl. split; [assumption | constructor].
  - rewrite for_each_cons.
    destruct (Hb a st t (or_introl eq_refl) Hst) as [H1 H2].
    unfold and_then. destruct (raised (body a st t)); simpl.
    + split; assumption.
    + destruct (IH (fun a' st' t' Ha => Hb a' st' t' (or_intror Ha))
                  (fs (body a st t)) (tick (body a st t)) H1) as [H3 H4].
      split; [assumption | apply Forall_app; split; assumption].
Qed.

(** The recursive equation of [sync_folders]. *)
Lemma sync_folders_eq clock source p replica t :
  sync_folders clock source p replica t =
  and_then (ensure_replica clock p replica t) Some
    (fun r t =>
       if up_to_date source r then
         and_then (info (NoUpdatesNeeded p) r t) Some (fun r t => ret (Some r) t)
       else
         and_then
           (info (SyncFolder p) r t >>
            (fun r t =>
               match source with
               | File _ _ => raise NotADirectoryError r t
               | Dir _ es => copy_files clock p es r t
               end) >>
            remove_files clock source p)
           Some (fun r t => ret (Some r) t)).
Proof. destruct source; reflexivity. Qed.

(** ** The pruner *)

Section Pruner.
Variable clock : nat -> Z.
Variable source : node.
Variable p : path.

Let keep := kept source.

Lemma kept_prefix_skipped prefix name :
  (forall e, In e prefix -> keep e = true) ->
  child_exists source name = false ->
  lookup name prefix = None.
Proof.
  intros Hp Hn. apply lookup_None. intros Hin.
  apply in_map_iff in Hin. destruct Hin as [e [<- He]].
  apply Hp in He. unfold keep, kept in He. congruence.
Qed.

Lemma remove_after_prefix prefix name c rest :
  lookup name prefix = None ->
  remove name (prefix ++ (name, c) :: rest) = prefix ++ rest.
Proof.
  induction prefix as [|[n d] prefix IH]; simpl.
  - now rewrite String.eqb_refl.
  - destruct (String.eqb n name); [discriminate|].
    intros H. now rewrite IH.
Qed.

(** The loop of [remove_files], started anywhere in the listing: what
    was kept so far is [prefix], what is still to be examined is
    [suffix]. *)
Lemma remove_loop suffix :
  forall prefix rm t,
    (forall e, In e prefix -> keep e = true) ->
    let o := for_each (remove_item clock source p) (listdir suffix)
               (Dir rm (prefix ++ suffix)) t in
    raised o = None /\
    (exists rm', fs o = Dir rm' (prefix ++ filter keep suffix)) /\
    log o = map (removal_event p) (filter (fun e => negb (keep e)) suffix).
Proof.
  induction suffix as [|[n c] suffix IH]; intros prefix rm t Hp.
  - simpl. repeat split. now exists rm.
  - cbn zeta. change (listdir ((n, c) :: suffix)) with (n :: listdir suffix).
    rewrite for_each_cons. simpl filter.
    change (keep (n, c)) with (child_exists source n).
    destruct (child_exists source n) eqn:Hn.
    + assert (Hstep : remove_item clock source p n
                        (Dir rm (prefix ++ (n, c) :: suffix)) t
                      = ret (Dir rm (prefix ++ (n, c) :: suffix)) t).
      { unfold remove_item. now rewrite Hn. }
      rewrite Hstep, and_then_ok by reflexivity.
      cbn [fs tick log raised ret negb app].
      specialize (IH (prefix ++ [(n, c)]) rm t).
      rewrite <- app_assoc in IH. cbn [app] in IH.
      destruct IH as (H1 & [rm' H2] & H3).
      { intros e He. apply in_app_or in He. destruct He as [He|[<-|[]]];
          [now apply Hp | exact Hn]. }
      repeat split; [exact H1 | | exact H3].
      exists rm'. rewrite H2. now rewrite <- app_assoc.
    + pose proof (kept_prefix_skipped prefix n Hp Hn) as Hskip.
      assert (Hstep : remove_item clock source p n
                        (Dir rm (prefix ++ (n, c) :: suffix)) t
                      = info (removal_event p (n, c))
                          (Dir (clock t) (prefix ++ suffix)) (S t)).
      { unfold remove_item. rewrite Hn, lookup_app, Hskip. simpl lookup.
        rewrite String.eqb_refl, (remove_after_prefix prefix n c suffix Hskip).
        now destruct c. }
      rewrite Hstep, and_then_ok by reflexivity.
      cbn [fs tick log raised info negb map app].
      destruct (IH prefix (clock t) (S t) Hp) as (H1 & [rm' H2] & H3).
      repeat split; [exact H1 | exists rm'; exact H2 | ].
      rewrite H3. reflexivity.
Qed.

Lemma remove_files_effect rm res t :
  let o := remove_files clock source p (Dir rm res) t in
  raised o = None /\
  (exists rm', fs o = Dir rm' (filter keep res)) /\
  log o = map (removal_event p) (filter (fun e => negb (keep e)) res).
Proof.
  unfold remove_files. apply (remove_loop res [] rm t). intros e [].
Qed.

(** C8. [remove_files] deletes exactly the top-level replica entries
    whose name does not exist in the source, whatever their kind and
    the kind of anything in the source; a deleted directory goes with
    its whole subtree; each deletion logs one removed-folder or
    removed-file event, in listing order; the entries that stay are
    left as they were, sub-directories included (nothing below the
    top level is examined). It raises nothing. *)
Theorem remove_files_prunes_one_level rm res t :
  let o := remove_files clock source p (Dir rm res) t in
  raised o = None /\
  (exists rm', fs o = Dir rm' (filter (kept source) res)) /\
  log o = map (removal_event p) (filter (fun e => negb (kept source e)) res).
Proof. exact (remove_files_effect rm res t). Qed.
End Pruner.

(** ** The tree digest of trees without files *)

Lemma fold_left_ext {A B} (f g : A -> B -> A) l :
  (forall a b, In b l -> f a b = g a b) ->
  forall a, fold_left f l a = fold_left g l a.
Proof.
  induction l as [|b l IH]; intros H a; [reflexivity|].
  simpl. rewrite H by now left. apply IH. intros. apply H. now right.
Qed.

Lemma fold_left_fixed {A B} (f : A -> B -> A) l a :
  (forall b, In b l -> f a b = a) -> fold_left f l a = a.
Proof.
  induction l as [|b l IH]; intros H; [reflexivity|].
  simpl. rewrite H by now left. apply IH. intros. apply H. now right.
Qed.

(** Descending into the directory named [d] is a lookup of [d]. *)
Lemma os_walk_Dir {S} (body : path -> list (string * node) -> list string ->
                              list string -> S -> list string * S)
  top m es s :
  os_walk body top (Dir m es) s =
  fold_left
    (fun acc d =>
       match lookup d es with
       | Some c => os_walk body (top ++ [d]) c acc
       | None => acc
       end)
    (fst (body top es (dirnames es) (filenames es) s))
    (snd (body top es (dirnames es) (filenames es) s)).
Proof.
  simpl. destruct (body top es (dirnames es) (filenames es) s) as [dirs s1].
  simpl. apply fold_left_ext. intros acc d _.
  generalize es. intros l. induction l as [|[n c] l IH]; [reflexivity|].
  simpl. now destruct (String.eqb n d).
Qed.

Lemma only_dirs_no_filenames es :
  forallb (fun e => only_dirs (snd e)) es = true -> filenames es = [].
Proof.
  induction es as [|[n c] es IH]; [reflexivity|].
  simpl. intros H. apply andb_prop in H. destruct H as [Hc Hes].
  unfold filenames. simpl. destruct c; [discriminate|].
  simpl. now apply IH.
Qed.

Lemma walk_only_dirs t :
  only_dirs t = true ->
  forall top h, os_walk folder_body top t h = h.
Proof.
  induction t as [c m | m es IH] using node_induction; intros Hd top h.
  - reflexivity.
  - rewrite os_walk_Dir. simpl in Hd. unfold folder_body. cbn [fst snd].
    rewrite (only_dirs_no_filenames es Hd). simpl.
    apply fold_left_fixed. intros d _.
    destruct (lookup d es) as [c|] eqn:Hl; [|reflexivity].
    apply lookup_In in Hl.
    rewrite Forall_forall in IH. apply (IH _ Hl).
    rewrite forallb_forall in Hd. apply (Hd _ Hl).
Qed.

(** C10. The tree digest of a path that does not exist, of an empty
    directory, and of any tree made of directories only, is the MD5
    digest of the empty input; no exception is involved. *)
Theorem digest_without_files (t : node) (H : only_dirs t = true) :
  calculate_folder_md5 (Some t) = Hashlib.hexdigest Hashlib.md5 /\
  calculate_folder_md5 None = Hashlib.hexdigest Hashlib.md5 /\
  (forall m, calculate_folder_md5 (Some (Dir m [])) = calculate_folder_md5 None) /\
  calculate_folder_md5 (Some t) = calculate_folder_md5 None.
Proof.
  assert (E : calculate_folder_md5 (Some t) = Hashlib.hexdigest Hashlib.md5).
  { unfold calculate_folder_md5. now rewrite walk_only_dirs. }
  repeat split; auto.
Qed.

Lemma digest_without_files_witness :
  only_dirs (Dir 0 [("x", Dir 1 [("y", Dir 2 [])]); ("z", Dir 0 [])]) = true /\
  calculate_folder_md5
    (Some (Dir 0 [("x", Dir 1 [("y", Dir 2 [])]); ("z", Dir 0 [])]))
  = calculate_folder_md5 None.
Proof.
  split; [reflexivity|].
  apply (digest_without_files
           (Dir 0 [("x", Dir 1 [("y", Dir 2 [])]); ("z", Dir 0 [])])).
  reflexivity.
Defined.

(** ** The synchroniser: the two ways out before any copy *)

(** C5. When the replica exists, the source is not strictly newer than
    it and the two tree digests are equal, [sync_folders] logs "no
    updates needed" and returns: the replica is left exactly as it was,
    nothing is copied, overwritten or deleted. *)
Theorem up_to_date_replica_untouched clock (source replica : node) (p : path) (t : nat)
  (Hmtime : (getmtime source <= getmtime replica)%Z)
  (Hdigest : calculate_folder_md5 (Some source) = calculate_folder_md5 (Some replica)) :
  sync_folders clock source p (Some replica) t
  = Out (Some replica) t [NoUpdatesNeeded p] None.
Proof.
  rewrite sync_folders_eq. unfold up_to_date. cbn [ensure_replica ret and_then raised fs tick log].
  apply Z.leb_le in Hmtime. rewrite Hmtime, Hdigest, String.eqb_refl.
  reflexivity.
Qed.

Lemma up_to_date_replica_untouched_witness :
  sync wall_clock
    (Some (Dir 1 [("a", File "hi" 0)]))
    (Some (Dir 2 [("a", File "hi" 0); ("e", Dir 0 [])])) 0
  = Out (Some (Dir 2 [("a", File "hi" 0); ("e", Dir 0 [])])) 0
      [NoUpdatesNeeded []] None.
Proof.
  apply (up_to_date_replica_untouched wall_clock
           (Dir 1 [("a", File "hi" 0)])
           (Dir 2 [("a", File "hi" 0); ("e", Dir 0 [])]) [] 0).
  - vm_compute. discriminate.
  - vm_compute. reflexivity.
Defined.

(** C9. With neither the source path nor the replica path in existence,
    [sync_folders] raises [FileNotFoundError], and it does so after it
    has created the replica directory: the directory exists when the
    exception leaves the call, and its creation was logged. *)
Theorem missing_source_creates_replica_then_raises clock t :
  let o := sync clock None None t in
  raised o = Some FileNotFoundError /\
  fs o = Some (Dir (clock t) []) /\
  log o = [CreatingFolder []].
Proof. repeat split. Qed.

(** ** The copier: what one iteration leaves alone *)

Section CopyFrame.
Variable clock : nat -> Z.
Variable sync : node -> path -> option node -> nat -> out (option node).
Variable p : path.

Lemma copy_item_names e st t :
  forall name, In name (listdir (entries st)) ->
               In name (listdir (entries (fs (copy_item clock sync p e st t)))).
Proof.
  destruct e as [item s]. intros name Hin. unfold copy_item.
  destruct st as [fc fm | rm res]; [exact Hin|].
  destruct s as [c m | sm ses].
  - destruct (lookup item res) as [[c' m' | m' des]|]; break_ifs;
      auto using listdir_set.
  - out_simpl. destruct (fs (sync _ _ _ _)); auto using listdir_set.
Qed.

Lemma copy_item_other e st t name :
  name <> fst e ->
  lookup name (entries (fs (copy_item clock sync p e st t))) =
  lookup name (entries st).
Proof.
  destruct e as [item s]. cbn [fst]. intros Hne. unfold copy_item.
  destruct st as [fc fm | rm res]; [reflexivity|].
  assert (Hset : forall v, lookup name (set item v res) = lookup name res).
  { intros v. apply lookup_set_other. congruence. }
  destruct s as [c m | sm ses].
  - destruct (lookup item res) as [[c' m' | m' des]|]; break_ifs; auto.
  - out_simpl. destruct (fs (sync _ _ _ _)); auto.
Qed.

Lemma copy_item_kind e st t :
  is_dir (fs (copy_item clock sync p e st t)) = is_dir st.
Proof.
  destruct e as [item s]. unfold copy_item.
  destruct st as [fc fm | rm res]; [reflexivity|].
  destruct s as [c m | sm ses]; [|reflexivity].
  destruct (lookup item res) as [[c' m' | m' des]|]; break_ifs; reflexivity.
Qed.

Lemma copy_files_names es st t :
  forall name, In name (listdir (entries st)) ->
    In name (listdir (entries (fs (copy_files_with clock sync p es st t)))).
Proof.
  intros name Hin.
  apply (for_each_invariant (copy_item clock sync p)
           (fun st' => In name (listdir (entries st'))) (fun _ => True) es);
    [|exact Hin].
  intros a st' t' _ H. split; [now apply copy_item_names|].
  apply Forall_forall. auto.
Qed.

Lemma copy_files_other es st t name :
  ~ In name (listdir es) ->
  lookup name (entries (fs (copy_files_with clock sync p es st t))) =
  lookup name (entries st).
Proof.
  intros Hn.
  apply (for_each_invariant (copy_item clock sync p)
           (fun st' => lookup name (entries st') = lookup name (entries st))
           (fun _ => True) es); [|reflexivity].
  intros a st' t' Ha H. split; [|apply Forall_forall; auto].
  rewrite copy_item_other; [exact H|].
  intros ->. apply Hn. now apply in_map.
Qed.

Lemma copy_files_kind es st t :
  is_dir (fs (copy_files_with clock sync p es st t)) = is_dir st.
Proof.
  apply (for_each_invariant (copy_item clock sync p)
           (fun st' => is_dir st' = is_dir st) (fun _ => True) es);
    [|reflexivity].
  intros a st' t' _ H. split; [|apply Forall_forall; auto].
  now rewrite copy_item_kind.
Qed.
End CopyFrame.

(** ** Where the events of a pass are *)

Lemma within_here q ev : ev_path ev = q -> is_copy ev || is_removal ev = false -> within q ev.
Proof.
  intros Hq Hk. exists []. rewrite app_nil_r. split; [assumption|].
  rewrite Hk. discriminate.
Qed.

Lemma within_child q item ev : ev_path ev = q ++ [item] -> within q ev.
Proof. intros Hq. exists [item]. split; [assumption | discriminate]. Qed.

Lemma within_up q item ev : within (q ++ [item]) ev -> within q ev.
Proof.
  intros [suffix [H _]]. exists (item :: suffix). split; [|discriminate].
  now rewrite H, <- app_assoc.
Qed.

Lemma copy_item_within clock sync p e st t :
  (forall q r t', Forall (within q) (log (sync (snd e) q r t'))) ->
  Forall (within p) (log (copy_item clock sync p e st t)).
Proof.
  destruct e as [item s]. cbn [snd]. intros Hs. unfold copy_item.
  destruct st as [fc fm | rm res]; [constructor|].
  destruct s as [c m | sm ses].
  - destruct (lookup item res) as [[c' m' | m' des]|]; break_ifs;
      repeat constructor; now apply within_child with item.
  - out_simpl. eapply Forall_impl; [|apply Hs]. intros ev. apply within_up.
Qed.

Lemma remove_files_within clock source p st t :
  Forall (within p) (log (remove_files clock source p st t)).
Proof.
  destruct st as [fc fm | rm res]; [constructor|].
  destruct (remove_files_effect clock source p rm res t) as (_ & _ & ->).
  apply Forall_forall. intros ev Hev. apply in_map_iff in Hev.
  destruct Hev as [[n c] [<- _]]. unfold removal_event. cbn [fst snd].
  destruct (is_dir c); now apply within_child with n.
Qed.

Lemma log_and_then_within {T U} q (o : out T) (lift : T -> U) k :
  Forall (within q) (log o) ->
  (forall st t, Forall (within q) (log (k st t))) ->
  Forall (within q) (log (and_then o lift k)).
Proof.
  intros Ho Hk. unfold and_then. destruct (raised o); out_simpl; [assumption|].
  apply Forall_app. split; [assumption | apply Hk].
Qed.

Lemma sync_within clock source :
  forall p replica t,
    Forall (within p) (log (sync_folders clock source p replica t)).
Proof.
  induction source as [c m | m es IH] using node_induction;
    intros p replica t; rewrite sync_folders_eq.
  - apply log_and_then_within.
    { destruct replica; cbn [ensure_replica]; out_simpl; repeat constructor; now apply within_here. }
    intros r t'. destruct (up_to_date _ r).
    + cbn [and_then]; out_simpl; cbn [app]; repeat constructor; now apply within_here.
    + cbn [and_then]; out_simpl; cbn [app]; repeat constructor; now apply within_here.
  - apply log_and_then_within.
    { destruct replica; cbn [ensure_replica]; out_simpl; repeat constructor; now apply within_here. }
    intros r t'. destruct (up_to_date _ r).
    + cbn [and_then]; out_simpl; cbn [app]; repeat constructor; now apply within_here.
    + repeat apply log_and_then_within;
        try (intros; out_simpl; repeat constructor; now apply within_here).
      * intros st t''. unfold copy_files, copy_files_with.
        apply (for_each_invariant (copy_item clock (sync_folders clock) p)
                 (fun _ => True) (within p) es); [|exact I].
        intros a st' t3 Ha _. split; [exact I|].
        apply copy_item_within. rewrite Forall_forall in IH.
        intros q r' t4. apply (IH a Ha).
      * intros. apply remove_files_within.
Qed.

Lemma within_below q ev : within q ev -> below q ev.
Proof. intros [suffix [H _]]. now exists suffix. Qed.

(** The events of the iteration for [item] are about [item] or below. *)
Lemma copy_item_below clock sync p e st t :
  (forall q r t', Forall (within q) (log (sync (snd e) q r t'))) ->
  Forall (below (p ++ [fst e])) (log (copy_item clock sync p e st t)).
Proof.
  destruct e as [item s]. cbn [fst snd]. intros Hs. unfold copy_item.
  destruct st as [fc fm | rm res]; [constructor|].
  destruct s as [c m | sm ses].
  - destruct (lookup item res) as [[c' m' | m' des]|]; break_ifs;
      repeat constructor; exists []; now rewrite app_nil_r.
  - out_simpl. eapply Forall_impl; [|apply Hs]. intros ev. apply within_below.
Qed.

Lemma below_not_sibling q item item' ev :
  item' <> item -> below (q ++ [item']) ev -> ev_path ev <> q ++ [item].
Proof.
  intros Hne [suffix H] E. rewrite H, <- app_assoc in E.
  apply app_inv_head in E. cbn [app] in E. congruence.
Qed.

(** ** The copier: a touched file with the same content *)

(** C3. A source file whose replica counterpart is a file with an older
    modification time and the same content digest is not copied: after
    [copy_files] (whether it completed or raised on another item) the
    replica file is there as it was, and no copy event about its path
    was logged. *)
Theorem touched_file_not_copied clock p es rm res t item c m c' m'
  (Hnames : NoDup (listdir es))
  (Hsrc : In (item, File c m) es)
  (Hrep : lookup item res = Some (File c' m'))
  (Hnewer : (m' < m)%Z)
  (Hsame : calculate_md5 c = calculate_md5 c') :
  let o := copy_files clock p es (Dir rm res) t in
  lookup item (entries (fs o)) = Some (File c' m') /\
  forall ev, In ev (log o) -> is_copy ev = true -> ev_path ev <> p ++ [item].
Proof.
  cbn zeta. rewrite <- Forall_forall.
  apply (for_each_invariant (copy_item clock (sync_folders clock) p)
           (fun st => lookup item (entries st) = Some (File c' m'))
           (fun ev => is_copy ev = true -> ev_path ev <> p ++ [item]) es);
    [|exact Hrep].
  intros [n s] st t' Ha Hst.
  destruct (String.eqb_spec n item) as [->|Hne].
  - assert (s = File c m) as ->.
    { apply In_lookup in Ha; [|assumption].
      apply In_lookup in Hsrc; [|assumption]. congruence. }
    destruct st as [fc fm | rm' res']; [discriminate|].
    cbn [entries] in Hst. unfold copy_item. rewrite Hst.
    apply Z.ltb_lt in Hnewer. rewrite Hnewer, Hsame, String.eqb_refl.
    out_simpl. split; [assumption | constructor].
  - split.
    + rewrite copy_item_other; [assumption | cbn [fst]; congruence].
    + eapply Forall_impl;
        [|apply copy_item_below; intros; apply sync_within].
      intros ev Hev _. now apply below_not_sibling with n.
Qed.

Lemma touched_file_not_copied_witness :
  let o := copy_files wall_clock []
             [("a.txt", File "hi" 9); ("b.txt", File "new" 9)]
             (Dir 3 [("a.txt", File "hi" 2)]) 0 in
  lookup "a.txt" (entries (fs o)) = Some (File "hi" 2) /\
  forall ev, In ev (log o) -> is_copy ev = true -> ev_path ev <> [] ++ ["a.txt"].
Proof.
  apply (touched_file_not_copied wall_clock []
           [("a.txt", File "hi" 9); ("b.txt", File "new" 9)] 3
           [("a.txt", File "hi" 2)] 0 "a.txt" "hi" 9 "hi" 2).
  - repeat constructor; cbn; intuition discriminate.
  - now left.
  - reflexivity.
  - lia.
  - reflexivity.
Defined.

(** ** The synchroniser: copy first, prune second *)

(** C4. When the pair is not up to date, [sync_folders] runs
    [copy_files] and, only if it completed, [remove_files] on the state
    it left.  When [copy_files] raises, the exception leaves
    [sync_folders] with the replica as [copy_files] left it: every name
    that was in the replica directory is still there, and no removal of
    one of its entries was logged. *)
Theorem copy_failure_precedes_pruning clock m es p replica t :
  let o1 := ensure_replica clock p replica t in
  let oc := copy_files clock p es (fs o1) (tick o1) in
  let orm := remove_files clock (Dir m es) p (fs oc) (tick oc) in
  let o := sync_folders clock (Dir m es) p replica t in
  up_to_date (Dir m es) (fs o1) = false ->
  (raised oc = None ->
     fs o = Some (fs orm) /\ raised o = raised orm /\
     log o = log o1 ++ SyncFolder p :: log oc ++ log orm) /\
  (forall e, raised oc = Some e ->
     raised o = Some e /\ fs o = Some (fs oc) /\
     log o = log o1 ++ SyncFolder p :: log oc /\
     (forall name, In name (listdir (entries (fs o1))) ->
                   In name (listdir (entries (fs oc)))) /\
     (forall ev item, In ev (log o) -> is_removal ev = true ->
                      ev_path ev <> p ++ [item])).
Proof.
  cbn zeta.
  set (o1 := ensure_replica clock p replica t).
  set (oc := copy_files clock p es (fs o1) (tick o1)).
  intros Hup.
  assert (Ho1 : raised o1 = None) by (destruct replica; reflexivity).
  assert (Ho1log : forall ev, In ev (log o1) -> is_removal ev = false).
  { destruct replica; cbn; intros ev H; [destruct H | destruct H as [<-|[]]; reflexivity]. }
  rewrite sync_folders_eq. fold o1.
  rewrite (and_then_ok o1) by assumption. cbv beta. rewrite Hup.
  rewrite (and_then_ok (info (SyncFolder p) (fs o1) (tick o1))) by reflexivity.
  cbv beta. out_simpl. fold oc. split.
  - intros Hoc. unfold and_then at 2. out_simpl. rewrite Hoc.
    unfold and_then. out_simpl.
    destruct (raised (remove_files _ _ _ _ _)); out_simpl;
      rewrite ?app_nil_r; repeat split; now rewrite <- ?app_assoc.
  - intros e Hoc. unfold and_then at 2. out_simpl. rewrite Hoc.
    unfold and_then. out_simpl.
    repeat split.
    + apply copy_files_names.
    + intros ev item Hev Hrem.
      apply in_app_or in Hev. destruct Hev as [Hev|Hev].
      { apply Ho1log in Hev. congruence. }
      cbn [app] in Hev. destruct Hev as [<-|Hev]; [discriminate|].
      (* a removal logged during the copy belongs to a sub-directory *)
      assert (Hb : Forall (fun ev => is_removal ev = true ->
                                     forall item, ev_path ev <> p ++ [item])
                     (log oc)).
      { apply (for_each_invariant (copy_item clock (sync_folders clock) p)
                 (fun _ => True) _ es); [|exact I].
        intros [n s] st t' _ _. split; [exact I|].
        unfold copy_item. destruct st as [fc fm | rm res]; [constructor|].
        destruct s as [c sm | sm ses].
        - destruct (lookup n res) as [[c' m' | m' des]|]; break_ifs;
            repeat constructor; discriminate.
        - out_simpl. eapply Forall_impl; [|apply sync_within].
          intros ev' [suffix [Hp Hs]] Hr item' E.
          rewrite Hr, orb_true_r in Hs. specialize (Hs eq_refl).
          rewrite Hp, <- app_assoc in E. apply app_inv_head in E.
          destruct suffix; [congruence | discriminate]. }
      rewrite Forall_forall in Hb. now apply Hb.
Qed.

(** ** The traversal order of the tree digest *)

Lemma fold_left_flat_map {A B C} (f : A -> B -> A) (g : C -> list B) l :
  forall a,
    fold_left f (flat_map g l) a = fold_left (fun a x => fold_left f (g x) a) l a.
Proof.
  induction l as [|x l IH]; intros a; [reflexivity|].
  simpl. now rewrite fold_left_app, IH.
Qed.

Lemma spec_preorder_Dir top m es :
  spec_preorder top (Dir m es) =
  flat_map
    (fun f =>
       match lookup f es with
       | Some (File content _) => [(top ++ [f], calculate_md5 content)]
       | _ => []
       end)
    (sort (filenames es))
  ++
  flat_map
    (fun d =>
       match lookup d es with
       | Some c => spec_preorder (top ++ [d]) c
       | None => []
       end)
    (sort (dirnames es)).
Proof.
  cbn [spec_preorder]. f_equal. apply flat_map_ext. intros d.
  generalize es. intros l. induction l as [|[n c] l IH]; [reflexivity|].
  cbn [lookup]. now destruct (String.eqb n d).
Qed.

Lemma walk_is_preorder t :
  forall top h,
    os_walk folder_body top t h = fold_left fold_pair (spec_preorder top t) h.
Proof.
  induction t as [c m | m es IH] using node_induction; intros top h.
  - reflexivity.
  - rewrite os_walk_Dir, spec_preorder_Dir, fold_left_app.
    rewrite !fold_left_flat_map. unfold folder_body. cbn [fst snd].
    assert (Hfiles :
      fold_left (hash_file top es) (sort (filenames es)) h =
      fold_left
        (fun a f =>
           fold_left fold_pair
             match lookup f es with
             | Some (File content _) => [(top ++ [f], calculate_md5 content)]
             | _ => []
             end a)
        (sort (filenames es)) h).
    { apply fold_left_ext. intros a f _. unfold hash_file.
      destruct (lookup f es) as [[content fm | dm des]|]; reflexivity. }
    rewrite Hfiles. apply fold_left_ext. intros a d _.
    destruct (lookup d es) as [c|] eqn:Hl; [|reflexivity].
    apply lookup_In in Hl. rewrite Forall_forall in IH. apply (IH _ Hl).
Qed.

(** C7. The tree digest is the hash of the pairs (relative path, file
    digest) folded in the order of [spec_preorder]: depth-first
    pre-order, at every level the files in lexicographic order, then the
    sub-directories in lexicographic order, each sub-directory
    completely before the next one's files. *)
Theorem folder_digest_folds_preorder (t : node) :
  calculate_folder_md5 (Some t) =
  Hashlib.hexdigest (fold_left fold_pair (spec_preorder [] t) Hashlib.md5).
Proof. unfold calculate_folder_md5. now rewrite walk_is_preorder. Qed.

(** ** Sorting names *)

Lemma ascii_compare_refl a : Ascii.compare a a = Eq.
Proof. unfold Ascii.compare. apply N.compare_refl. Qed.

Lemma leb_trans a :
  forall b c, String.leb a b = true -> String.leb b c = true -> String.leb a c = true.
Proof.
  unfold String.leb.
  induction a as [|x a IH]; intros [|y b] [|z c]; cbn [String.compare];
    try easy.
  unfold Ascii.compare.
  destruct (N.compare_spec (N_of_ascii x) (N_of_ascii y)) as [Hxy|Hxy|Hxy];
    destruct (N.compare_spec (N_of_ascii y) (N_of_ascii z)) as [Hyz|Hyz|Hyz];
    destruct (N.compare_spec (N_of_ascii x) (N_of_ascii z)) as [Hxz|Hxz|Hxz];
    try easy; try lia.
  apply IH.
Qed.

Lemma leb_false_flip a b : String.leb a b = false -> String.leb b a = true.
Proof. destruct (String.leb_total a b) as [H|H]; congruence. Qed.

Lemma insert_insert x y l : insert x (insert y l) = insert y (insert x l).
Proof.
  induction l as [|z l IH]; cbn [insert].
  - destruct (String.leb x y) eqn:Hxy, (String.leb y x) eqn:Hyx; try reflexivity.
    + now rewrite (String.leb_antisym _ _ Hxy Hyx).
    + apply leb_false_flip in Hxy. congruence.
  - destruct (String.leb y z) eqn:Hyz, (String.leb x z) eqn:Hxz; cbn [insert];
      rewrite ?Hyz, ?Hxz.
    + destruct (String.leb x y) eqn:Hxy, (String.leb y x) eqn:Hyx; try reflexivity.
      * now rewrite (String.leb_antisym _ _ Hxy Hyx).
      * apply leb_false_flip in Hxy. congruence.
    + destruct (String.leb x y) eqn:Hxy; [|reflexivity].
      rewrite (leb_trans _ _ _ Hxy Hyz) in Hxz. discriminate.
    + destruct (String.leb y x) eqn:Hyx; [|reflexivity].
      rewrite (leb_trans _ _ _ Hyx Hxz) in Hyz. discriminate.
    + now rewrite IH.
Qed.

(** Sorting depends on the names only, not on the listing order. *)
Lemma sort_permutation l l' : Permutation l l' -> sort l = sort l'.
Proof.
  induction 1; cbn [sort]; try congruence.
  apply insert_insert.
Qed.

Lemma insert_first x l :
  Forall (fun z => String.leb x z = true) l -> insert x l = x :: l.
Proof.
  destruct l as [|y l]; [reflexivity|].
  intros H. inversion H; subst. cbn [insert]. now rewrite H2.
Qed.

Lemma insert_In x y l : In y (insert x l) <-> y = x \/ In y l.
Proof.
  induction l as [|z l IH]; cbn [insert].
  - cbn. intuition.
  - destruct (String.leb x z); cbn [In]; [intuition|].
    rewrite IH. cbn. intuition.
Qed.

Lemma insert_ascending x l : ascending l -> ascending (insert x l).
Proof.
  induction 1 as [|z l Hl IH Hz]; cbn [insert].
  - repeat constructor.
  - destruct (String.leb x z) eqn:Hxz.
    + constructor; [now constructor|]. constructor; [assumption|].
      eapply Forall_impl; [|exact Hz]. intros w Hw. eapply leb_trans; eassumption.
    + constructor; [assumption|]. apply Forall_forall. intros w Hw.
      apply insert_In in Hw. destruct Hw as [->|Hw].
      * now apply leb_false_flip.
      * rewrite Forall_forall in Hz. now apply Hz.
Qed.

Lemma sort_ascending l : ascending (sort l).
Proof.
  induction l; cbn [sort]; [constructor | now apply insert_ascending].
Qed.

Lemma sort_In x l : In x (sort l) <-> In x l.
Proof.
  induction l as [|y l IH]; cbn [sort]; [reflexivity|].
  rewrite insert_In, IH. cbn. intuition.
Qed.

Lemma filter_insert (P : string -> bool) x l :
  ascending l ->
  filter P (insert x l) = if P x then insert x (filter P l) else filter P l.
Proof.
  induction 1 as [|z l Hl IH Hz]; cbn [insert filter].
  - now destruct (P x).
  - destruct (String.leb x z) eqn:Hxz; cbn [filter].
    + destruct (P x); [|reflexivity].
      symmetry. apply insert_first.
      assert (Hall : Forall (fun w => String.leb x w = true) (z :: l)).
      { constructor; [assumption|]. eapply Forall_impl; [|exact Hz].
        intros w Hw. eapply leb_trans; eassumption. }
      apply Forall_forall. intros w Hw.
      rewrite Forall_forall in Hall. apply Hall.
      change (In w (filter P (z :: l))) in Hw.
      apply filter_In in Hw. tauto.
    + rewrite IH. destruct (P z), (P x); cbn [insert]; rewrite ?Hxz; reflexivity.
Qed.

Lemma filter_sort (P : string -> bool) l : filter P (sort l) = sort (filter P l).
Proof.
  induction l as [|x l IH]; [reflexivity|].
  cbn [sort filter]. rewrite filter_insert by apply sort_ascending.
  rewrite IH. now destruct (P x).
Qed.

Lemma flat_map_filter {A B} (h : A -> list B) (P : A -> bool) l :
  (forall x, P x = false -> h x = []) ->
  flat_map h (filter P l) = flat_map h l.
Proof.
  intros HP. induction l as [|x l IH]; [reflexivity|].
  cbn [filter flat_map]. destruct (P x) eqn:E; cbn [flat_map]; rewrite IH.
  - reflexivity.
  - now rewrite (HP x E).
Qed.

(** ** Listings of well-formed directories *)

Lemma NoDup_map_filter {A} (P : A * node -> bool) (es : list (A * node)) :
  NoDup (map fst es) -> NoDup (map fst (filter P es)).
Proof.
  induction es as [|e es IH]; cbn [map filter]; [constructor|].
  intros H. inversion H as [|? ? Hn Hnd]; subst.
  destruct (P e); cbn [map]; [|now apply IH].
  constructor; [|now apply IH].
  intros Hin. apply Hn. apply in_map_iff in Hin.
  destruct Hin as [e' [<- He']]. apply filter_In in He'.
  apply in_map. tauto.
Qed.

Lemma dirnames_spec es d :
  NoDup (listdir es) ->
  In d (dirnames es) <-> exists m des, lookup d es = Some (Dir m des).
Proof.
  intros Hnd. unfold dirnames. rewrite in_map_iff. split.
  - intros [[n c] [<- He]]. apply filter_In in He. destruct He as [He Hc].
    destruct c as [|m des]; [discriminate|].
    exists m, des. now apply In_lookup.
  - intros (m & des & Hl). apply lookup_In in Hl.
    exists (d, Dir m des). split; [reflexivity|]. now apply filter_In.
Qed.

Lemma filenames_spec es f :
  NoDup (listdir es) ->
  In f (filenames es) <-> exists c m, lookup f es = Some (File c m).
Proof.
  intros Hnd. unfold filenames. rewrite in_map_iff. split.
  - intros [[n c] [<- He]]. apply filter_In in He. destruct He as [He Hc].
    destruct c as [c m|]; [|discriminate].
    exists c, m. now apply In_lookup.
  - intros (c & m & Hl). apply lookup_In in Hl.
    exists (f, File c m). split; [reflexivity|]. now apply filter_In.
Qed.

(** ** The tree digest depends on the files only *)

Lemma file_at_child m es n q :
  file_at (Dir m es) (n :: q) =
  match lookup n es with Some c => file_at c q | None => None end.
Proof. reflexivity. Qed.

Lemma file_entry top es f :
  match lookup f es with
  | Some (File content _) => [(top ++ [f], calculate_md5 content)]
  | _ => []
  end =
  match file_at (Dir 0 es) [f] with
  | Some content => [(top ++ [f], calculate_md5 content)]
  | None => []
  end.
Proof.
  rewrite file_at_child. now destruct (lookup f es) as [[c m | m des]|].
Qed.

Lemma spec_preorder_nil t :
  (forall q, file_at t q = None) -> forall top, spec_preorder top t = [].
Proof.
  induction t as [c m | m es IH] using node_induction; intros Hq top.
  - reflexivity.
  - rewrite spec_preorder_Dir.
    assert (Hnil : forall {A B} (h : A -> list B) l,
               (forall x, h x = []) -> flat_map h l = []).
    { intros A B h l Hh. induction l; cbn [flat_map]; [reflexivity|].
      now rewrite Hh. }
    rewrite !Hnil; [reflexivity | |].
    + intros d. destruct (lookup d es) as [c|] eqn:Hl; [|reflexivity].
      rewrite Forall_forall in IH. apply (IH _ (lookup_In _ _ _ Hl)).
      intros q. specialize (Hq (d :: q)). rewrite file_at_child, Hl in Hq.
      exact Hq.
    + intros f. specialize (Hq [f]). rewrite file_at_child in Hq.
      destruct (lookup f es) as [[c fm | dm des]|]; try reflexivity.
      discriminate.
Qed.

Lemma wf_child m es n c : wf (Dir m es) -> lookup n es = Some c -> wf c.
Proof.
  intros Hwf Hl. apply wf_Dir in Hwf. destruct Hwf as [_ Hall].
  rewrite Forall_forall in Hall. apply (Hall _ (lookup_In _ _ _ Hl)).
Qed.

Lemma spec_preorder_nonempty_dir top c :
  spec_preorder top c <> [] -> exists m des, c = Dir m des.
Proof. destruct c as [|m des]; [now intros [] | now exists m, des]. Qed.

Lemma spec_preorder_files_only A :
  wf A ->
  forall B, wf B ->
    (forall q, file_at A q = file_at B q) ->
    forall top, spec_preorder top A = spec_preorder top B.
Proof.
  induction A as [c m | m es IH] using node_induction; intros HwfA B HwfB Hq top.
  - destruct B as [c' m' | m' es']; [reflexivity|].
    specialize (Hq []). discriminate.
  - destruct B as [c' m' | m' es'].
    { specialize (Hq []). discriminate. }
    pose proof HwfA as HA. pose proof HwfB as HB.
    apply wf_Dir in HA, HB. destruct HA as [HndA _], HB as [HndB _].
    rewrite !spec_preorder_Dir. f_equal.
    + (* the files of this level *)
      assert (Hsort : sort (filenames es) = sort (filenames es')).
      { apply sort_permutation. apply NoDup_Permutation.
        - now apply NoDup_map_filter.
        - now apply NoDup_map_filter.
        - intros f. rewrite !filenames_spec by assumption.
          specialize (Hq [f]). rewrite !file_at_child in Hq.
          split; intros (c & fm & Hl); rewrite Hl in Hq; cbn in Hq.
          + destruct (lookup f es') as [[c' fm' | dm des]|]; try discriminate.
            now exists c', fm'.
          + destruct (lookup f es) as [[c' fm' | dm des]|]; try discriminate.
            now exists c', fm'. }
      rewrite Hsort. apply flat_map_ext. intros f.
      rewrite (file_entry top es f), (file_entry top es' f).
      change (file_at (Dir 0 es) [f]) with (file_at (Dir m es) [f]).
      change (file_at (Dir 0 es') [f]) with (file_at (Dir m' es') [f]).
      now rewrite Hq.
    + (* the sub-directories: each contributes the same on both sides *)
      set (hA := fun d => match lookup d es with
                          | Some c => spec_preorder (top ++ [d]) c
                          | None => []
                          end).
      set (hB := fun d => match lookup d es' with
                          | Some c => spec_preorder (top ++ [d]) c
                          | None => []
                          end).
      assert (Hh : forall d, hA d = hB d).
      { intros d. unfold hA, hB.
        assert (Hd : forall q, file_at (Dir m es) (d :: q) = file_at (Dir m' es') (d :: q))
          by (intros q; apply Hq).
        setoid_rewrite file_at_child in Hd.
        destruct (lookup d es) as [cA|] eqn:HlA, (lookup d es') as [cB|] eqn:HlB.
        - rewrite Forall_forall in IH.
          apply (IH _ (lookup_In _ _ _ HlA)).
          + exact (wf_child _ _ _ _ HwfA HlA).
          + exact (wf_child _ _ _ _ HwfB HlB).
          + exact Hd.
        - now apply spec_preorder_nil.
        - symmetry. apply spec_preorder_nil. intros q. now rewrite <- Hd.
        - reflexivity. }
      rewrite (flat_map_ext hB hA) by (intros; symmetry; apply Hh).
      set (P := fun d => match hA d with [] => false | _ => true end).
      assert (HP : forall d, P d = false -> hA d = []).
      { intros d. unfold P. now destruct (hA d). }
      rewrite <- (flat_map_filter hA P (sort (dirnames es)) HP).
      rewrite <- (flat_map_filter hA P (sort (dirnames es')) HP).
      rewrite !filter_sort. f_equal. apply sort_permutation.
      assert (Hmem : forall es0, NoDup (listdir es0) ->
                 (forall d, (match lookup d es0 with
                             | Some c => spec_preorder (top ++ [d]) c
                             | None => []
                             end) = hA d) ->
                 forall d, In d (filter P (dirnames es0)) <-> P d = true).
      { intros es0 Hnd0 H0 d. rewrite filter_In. split; [tauto|].
        intros Hd. split; [|assumption].
        apply dirnames_spec; [assumption|].
        unfold P in Hd. rewrite <- H0 in Hd.
        destruct (lookup d es0) as [c|]; [|discriminate].
        destruct c as [|dm des]; [discriminate|]. now exists dm, des. }
      apply NoDup_Permutation.
      * apply NoDup_filter. now apply NoDup_map_filter.
      * apply NoDup_filter. now apply NoDup_map_filter.
      * intros d. rewrite (Hmem es HndA (fun _ => eq_refl)).
        rewrite (Hmem es' HndB (fun d0 => eq_sym (Hh d0))). reflexivity.
Qed.

(** C2 (amended). Two well-formed trees with the same relative file
    paths and, at each of them, the same content, have the same tree
    digest; directories without any file below them play no part. *)
Theorem same_files_same_digest (A B : node)
  (HA : wf A) (HB : wf B)
  (Hfiles : forall q, file_at A q = file_at B q) :
  calculate_folder_md5 (Some A) = calculate_folder_md5 (Some B).
Proof.
  unfold calculate_folder_md5. rewrite !walk_is_preorder.
  now rewrite (spec_preorder_files_only A HA B HB Hfiles).
Qed.

(** ** The phases of a pass *)

(** A pass over a pair that is not up to date, phase by phase. *)
Lemma sync_folders_phases clock source p replica t :
  let o1 := ensure_replica clock p replica t in
  let oc := match source with
            | File _ _ => raise NotADirectoryError (fs o1) (tick o1)
            | Dir _ es => copy_files clock p es (fs o1) (tick o1)
            end in
  let orm := remove_files clock source p (fs oc) (tick oc) in
  let o := sync_folders clock source p replica t in
  up_to_date source (fs o1) = false ->
  match raised oc with
  | None =>
      fs o = Some (fs orm) /\ tick o = tick orm /\ raised o = raised orm /\
      log o = log o1 ++ SyncFolder p :: log oc ++ log orm
  | Some e =>
      fs o = Some (fs oc) /\ tick o = tick oc /\ raised o = Some e /\
      log o = log o1 ++ SyncFolder p :: log oc
  end.
Proof.
  cbn zeta.
  set (o1 := ensure_replica clock p replica t).
  intros Hup.
  assert (Ho1 : raised o1 = None) by (destruct replica; reflexivity).
  rewrite sync_folders_eq. fold o1.
  rewrite (and_then_ok o1) by assumption. cbv beta. rewrite Hup.
  rewrite (and_then_ok (info (SyncFolder p) (fs o1) (tick o1))) by reflexivity.
  cbv beta. out_simpl.
  set (oc := match source with
             | File _ _ => raise NotADirectoryError (fs o1) (tick o1)
             | Dir _ es => copy_files clock p es (fs o1) (tick o1)
             end).
  unfold and_then at 2. out_simpl.
  destruct (raised oc) eqn:Hoc.
  - unfold and_then. out_simpl. repeat split.
  - unfold and_then. out_simpl.
    destruct (raised (remove_files _ _ _ _ _)); out_simpl;
      rewrite ?app_nil_r; repeat split; now rewrite <- ?app_assoc.
Qed.

(** A pass over a pair that is up to date. *)
Lemma sync_folders_shortcut clock source p replica t :
  let o1 := ensure_replica clock p replica t in
  up_to_date source (fs o1) = true ->
  sync_folders clock source p replica t =
  Out (Some (fs o1)) (tick o1) (log o1 ++ [NoUpdatesNeeded p]) None.
Proof.
  cbn zeta. intros Hup. rewrite sync_folders_eq.
  rewrite and_then_ok by (destruct replica; reflexivity).
  cbv beta. rewrite Hup. reflexivity.
Qed.

Lemma sync_fs_some clock source p replica t :
  exists r, fs (sync_folders clock source p replica t) = Some r.
Proof.
  destruct (up_to_date source (fs (ensure_replica clock p replica t))) eqn:Hup.
  - rewrite sync_folders_shortcut by assumption. out_simpl. eauto.
  - pose proof (sync_folders_phases clock source p replica t Hup) as H.
    cbv zeta in H.
    destruct (raised match source with
                     | File _ _ => _
                     | Dir _ es => _
                     end); destruct H as (-> & _); eauto.
Qed.

Lemma remove_files_file clock source p c m t :
  raised (remove_files clock source p (File c m) t) = Some NotADirectoryError.
Proof. reflexivity. Qed.

Lemma lookup_filter_kept source name l :
  lookup name (filter (kept source) l) =
  if child_exists source name then lookup name l else None.
Proof.
  induction l as [|[n c] l IH]; cbn [filter lookup].
  - now destruct (child_exists source name).
  - change (kept source (n, c)) with (child_exists source n).
    destruct (child_exists source n) eqn:En; cbn [lookup]; rewrite IH;
      destruct (String.eqb_spec n name) as [->|Hne]; rewrite ?En;
      reflexivity.
Qed.

Lemma child_exists_listed m es name :
  child_exists (Dir m es) name = true <-> In name (listdir es).
Proof.
  cbn [child_exists]. destruct (lookup name es) eqn:E.
  - split; [intros _; eapply lookup_Some_listed; eassumption | reflexivity].
  - apply lookup_None in E. split; [discriminate | contradiction].
Qed.

(** ** The copier: what each iteration did *)

(** After a completed [copy_files] over a listing of distinct names, the
    replica entry of each item is the one its own iteration left, and
    that iteration ran on a replica directory where the entry was still
    the initial one. *)
Lemma copy_files_effect clock sync p es :
  NoDup (listdir es) ->
  forall st t,
    raised (copy_files_with clock sync p es st t) = None ->
    forall e, In e es ->
      exists st' t',
        lookup (fst e) (entries st') = lookup (fst e) (entries st) /\
        is_dir st' = is_dir st /\
        raised (copy_item clock sync p e st' t') = None /\
        lookup (fst e) (entries (fs (copy_files_with clock sync p es st t))) =
        lookup (fst e) (entries (fs (copy_item clock sync p e st' t'))).
Proof.
  unfold copy_files_with.
  induction es as [|a es IH]; intros Hnd st t Hok e He; [destruct He|].
  cbn [listdir map] in Hnd. inversion Hnd as [|? ? Ha Hnd']; subst.
  rewrite for_each_cons in *. unfold and_then in *.
  destruct (raised (copy_item clock sync p a st t)) eqn:Hstep; [discriminate|].
  cbn [fs raised] in *.
  destruct He as [->|He].
  - exists st, t. repeat split; [assumption|].
    now apply (copy_files_other clock sync p es).
  - destruct (IH Hnd' _ _ Hok e He) as (st' & t' & H1 & H2 & H3 & H4).
    exists st', t'. repeat split; try assumption.
    + rewrite H1. apply copy_item_other. intros E. apply Ha.
      rewrite <- E. now apply in_map.
    + rewrite H2. apply copy_item_kind.
Qed.

Lemma copy_item_file clock sync p item c fm rm res t :
  raised (copy_item clock sync p (item, File c fm) (Dir rm res) t) = None ->
  lookup item (entries (fs (copy_item clock sync p (item, File c fm) (Dir rm res) t)))
  = if stale c fm (lookup item res) then Some (File c fm) else lookup item res.
Proof.
  unfold copy_item, stale.
  destruct (lookup item res) as [[c' fm' | dm des]|] eqn:Hl;
    repeat match goal with
           | |- context [(?a <? ?b)%Z] => destruct (a <? b)%Z
           | |- context [negb ?b] => destruct (negb b)
           end; out_simpl; cbn [andb]; rewrite ?lookup_set_same; auto;
    discriminate.
Qed.

Lemma copy_item_dir clock sync p item sm ses rm res t :
  let o := sync (Dir sm ses) (p ++ [item]) (lookup item res) t in
  let oc := copy_item clock sync p (item, Dir sm ses) (Dir rm res) t in
  raised oc = raised o /\
  forall child, fs o = Some child -> lookup item (entries (fs oc)) = Some child.
Proof.
  cbn zeta. unfold copy_item. out_simpl. split; [reflexivity|].
  intros child ->. apply lookup_set_same.
Qed.

(** ** Convergence of the entries a pass works on *)

(** The effect of a completed pass that was not cut short, entry by entry. *)
Lemma full_pass_effect clock m es p replica t
  (Hnames : NoDup (listdir es))
  (Hfull : up_to_date (Dir m es) (fs (ensure_replica clock p replica t)) = false)
  (Hok : raised (sync_folders clock (Dir m es) p replica t) = None) :
  let r0 := fs (ensure_replica clock p replica t) in
  exists rm' res',
    fs (sync_folders clock (Dir m es) p replica t) = Some (Dir rm' res') /\
    (forall item c fm, In (item, File c fm) es ->
       lookup item res' =
       if stale c fm (lookup item (entries r0)) then Some (File c fm)
       else lookup item (entries r0)) /\
    (forall item sm ses, In (item, Dir sm ses) es ->
       exists t',
         raised (sync_folders clock (Dir sm ses) (p ++ [item])
                   (lookup item (entries r0)) t') = None /\
         lookup item res' =
         fs (sync_folders clock (Dir sm ses) (p ++ [item])
               (lookup item (entries r0)) t')) /\
    (forall name, In name (listdir res') -> In name (listdir es)).
Proof.
  cbn zeta.
  pose proof (sync_folders_phases clock (Dir m es) p replica t Hfull) as Hph.
  cbv zeta in Hph.
  set (r0 := fs (ensure_replica clock p replica t)) in *.
  set (t0 := tick (ensure_replica clock p replica t)) in *.
  destruct (raised (copy_files clock p es r0 t0)) eqn:Hoc.
  { destruct Hph as (_ & _ & Hr & _). congruence. }
  destruct Hph as (Hfs & _ & Hr & _). rewrite Hok in Hr.
  pose proof (copy_files_kind clock (sync_folders clock) p es r0 t0) as Hkind.
  fold (copy_files clock p es r0 t0) in Hkind.
  destruct (fs (copy_files clock p es r0 t0)) as [fc fm | rmc resc] eqn:Hfsc.
  { rewrite remove_files_file in Hr. discriminate. }
  destruct r0 as [fc fm | rm0 res0] eqn:Hr0; [discriminate|].
  destruct (remove_files_effect clock (Dir m es) p rmc resc
              (tick (copy_files clock p es (Dir rm0 res0) t0)))
    as (_ & [rm' Hrm] & _).
  exists rm', (filter (kept (Dir m es)) resc).
  split; [now rewrite Hfs, Hrm|].
  assert (Hitem : forall e, In e es ->
            exists rms ress t',
              lookup (fst e) ress = lookup (fst e) res0 /\
              raised (copy_item clock (sync_folders clock) p e (Dir rms ress) t') = None /\
              lookup (fst e) (filter (kept (Dir m es)) resc) =
              lookup (fst e)
                (entries (fs (copy_item clock (sync_folders clock) p e (Dir rms ress) t')))).
  { intros e He.
    destruct (copy_files_effect clock (sync_folders clock) p es Hnames
                (Dir rm0 res0) t0 Hoc e He) as (st' & t' & H1 & H2 & H3 & H4).
    destruct st' as [|rms ress]; [discriminate|].
    exists rms, ress, t'. repeat split; try assumption.
    rewrite lookup_filter_kept.
    replace (child_exists (Dir m es) (fst e)) with true
      by (symmetry; apply child_exists_listed; now apply in_map).
    fold (copy_files clock p es (Dir rm0 res0) t0) in H4.
    rewrite Hfsc in H4. exact H4. }
  repeat split.
  - intros item c fm He.
    destruct (Hitem _ He) as (rms & ress & t' & H1 & H2 & H3).
    cbn [fst entries] in *. rewrite H3, copy_item_file by assumption.
    now rewrite H1.
  - intros item sm ses He.
    destruct (Hitem _ He) as (rms & ress & t' & H1 & H2 & H3).
    cbn [fst entries] in *.
    destruct (copy_item_dir clock (sync_folders clock) p item sm ses rms ress t')
      as [Hra Hch].
    rewrite H1 in Hra, Hch. exists t'. split; [congruence|].
    destruct (sync_fs_some clock (Dir sm ses) (p ++ [item]) (lookup item res0) t')
      as [child Hc].
    rewrite H3, Hc. now apply Hch.
  - intros name Hin. apply in_map_iff in Hin. destruct Hin as [e [<- He]].
    apply filter_In in He. destruct He as [_ He].
    now apply child_exists_listed in He.
Qed.

(** C1 (amended). After a pass over a source directory that completes
    without error and is not cut short by the up-to-date test: every
    file of the source listing that was missing in the replica, or whose
    replica counterpart was an older file with another content digest,
    is in the replica under its name with the content and modification
    time of the source, and every other file item has the replica entry
    it had; the replica entry of every sub-directory of the source
    listing is the result of a completed pass over that pair; and no
    replica entry is left whose name is absent from the source
    listing. *)
Theorem sync_converges_where_it_copies clock m es p replica t
  (Hnames : NoDup (listdir es))
  (Hfull : up_to_date (Dir m es) (fs (ensure_replica clock p replica t)) = false)
  (Hok : raised (sync_folders clock (Dir m es) p replica t) = None) :
  let r0 := fs (ensure_replica clock p replica t) in
  exists rm' res',
    fs (sync_folders clock (Dir m es) p replica t) = Some (Dir rm' res') /\
    (forall item c fm, In (item, File c fm) es ->
       lookup item res' =
       if stale c fm (lookup item (entries r0)) then Some (File c fm)
       else lookup item (entries r0)) /\
    (forall item sm ses, In (item, Dir sm ses) es ->
       exists t',
         raised (sync_folders clock (Dir sm ses) (p ++ [item])
                   (lookup item (entries r0)) t') = None /\
         lookup item res' =
         fs (sync_folders clock (Dir sm ses) (p ++ [item])
               (lookup item (entries r0)) t')) /\
    (forall name, In name (listdir res') -> In name (listdir es)).
Proof.
  exact (full_pass_effect clock m es p replica t Hnames Hfull Hok).
Qed.

(** ** A second pass *)

Lemma quiet_here ev : is_copy ev || is_removal ev = false -> quiet ev.
Proof. intros H. apply orb_false_elim in H. exact H. Qed.

Lemma for_each_noop {A T} (body : A -> T -> nat -> out T) l st :
  (forall a, In a l -> forall t,
      fs (body a st t) = st /\ tick (body a st t) = t /\
      raised (body a st t) = None /\ Forall quiet (log (body a st t))) ->
  forall t,
    fs (for_each body l st t) = st /\ tick (for_each body l st t) = t /\
    raised (for_each body l st t) = None /\ Forall quiet (log (for_each body l st t)).
Proof.
  induction l as [|a l IH]; intros Hb t.
  - repeat split. constructor.
  - rewrite for_each_cons.
    destruct (Hb a (or_introl eq_refl) t) as (H1 & H2 & H3 & H4).
    rewrite and_then_ok by assumption. rewrite H1, H2. out_simpl.
    destruct (IH (fun a' Ha => Hb a' (or_intror Ha)) t) as (I1 & I2 & I3 & I4).
    repeat split; try assumption. apply Forall_app. now split.
Qed.

Lemma remove_files_noop clock source p rm res t :
  (forall e, In e res -> kept source e = true) ->
  remove_files clock source p (Dir rm res) t = ret (Dir rm res) t.
Proof.
  intros Hk. unfold remove_files.
  assert (Hl : forall n, In n (listdir res) -> child_exists source n = true).
  { intros n Hn. apply in_map_iff in Hn. destruct Hn as [e [<- He]].
    now apply Hk. }
  clear Hk. revert Hl. generalize (listdir res). intros l.
  induction l as [|n l IH]; intros Hl; [reflexivity|].
  rewrite for_each_cons. unfold remove_item at 1.
  rewrite (Hl n (or_introl eq_refl)).
  rewrite and_then_ok by reflexivity. out_simpl.
  rewrite IH by (intros; apply Hl; now right). reflexivity.
Qed.

Lemma copy_item_file_settled clock sync p item c fm rms ress t' rm1 res1 :
  raised (copy_item clock sync p (item, File c fm) (Dir rms ress) t') = None ->
  lookup item res1 =
    (if stale c fm (lookup item ress) then Some (File c fm) else lookup item ress) ->
  forall t,
    copy_item clock sync p (item, File c fm) (Dir rm1 res1) t = ret (Dir rm1 res1) t.
Proof.
  unfold copy_item at 1, stale. intros Hok Hl t. unfold copy_item. rewrite Hl.
  destruct (lookup item ress) as [[c' fm' | dm des]|].
  - destruct (fm' <? fm)%Z eqn:E1;
      destruct (negb (calculate_md5 c =? calculate_md5 c')%string) eqn:E2;
      cbn [andb]; rewrite ?E1, ?E2, ?Z.ltb_irrefl; reflexivity.
  - destruct (dm <? fm)%Z; [discriminate | reflexivity].
  - now rewrite Z.ltb_irrefl.
Qed.

Lemma shortcut_settles clock source p replica t :
  up_to_date source (fs (ensure_replica clock p replica t)) = true ->
  exists r1,
    fs (sync_folders clock source p replica t) = Some r1 /\
    settled clock source p r1.
Proof.
  intros Hup. rewrite sync_folders_shortcut by assumption. out_simpl.
  eexists. split; [reflexivity|]. intros t2. cbn zeta.
  rewrite sync_folders_shortcut by exact Hup.
  cbn [ensure_replica]. out_simpl. cbn [app].
  repeat split. repeat constructor.
Qed.

Lemma sync_settles clock source :
  wf source ->
  forall p replica t,
    raised (sync_folders clock source p replica t) = None ->
    exists r1,
      fs (sync_folders clock source p replica t) = Some r1 /\
      settled clock source p r1.
Proof.
  induction source as [c m | m es IH] using node_induction;
    intros Hwf p replica t Hok.
  - destruct (up_to_date (File c m) (fs (ensure_replica clock p replica t))) eqn:Hup;
      [now apply shortcut_settles|].
    pose proof (sync_folders_phases clock (File c m) p replica t Hup) as Hph.
    cbv zeta in Hph. out_simpl. cbn [raised raise] in Hph.
    destruct Hph as (_ & _ & Hr & _). congruence.
  - destruct (up_to_date (Dir m es) (fs (ensure_replica clock p replica t))) eqn:Hup;
      [now apply shortcut_settles|].
    pose proof (sync_folders_phases clock (Dir m es) p replica t Hup) as Hph.
    cbv zeta in Hph.
    set (r0 := fs (ensure_replica clock p replica t)) in *.
    set (t0 := tick (ensure_replica clock p replica t)) in *.
    destruct (raised (copy_files clock p es r0 t0)) eqn:Hoc.
    { destruct Hph as (_ & _ & Hr & _). congruence. }
    destruct Hph as (Hfs & _ & Hr & _). rewrite Hok in Hr.
    pose proof (copy_files_kind clock (sync_folders clock) p es r0 t0) as Hkind.
    fold (copy_files clock p es r0 t0) in Hkind.
    destruct (fs (copy_files clock p es r0 t0)) as [fc fm | rmc resc] eqn:Hfsc.
    { rewrite remove_files_file in Hr. discriminate. }
    destruct r0 as [fc fm | rm0 res0] eqn:Hr0; [discriminate|].
    destruct (remove_files_effect clock (Dir m es) p rmc resc
                (tick (copy_files clock p es (Dir rm0 res0) t0)))
      as (_ & [rm1 Hrm] & _).
    rewrite Hfs, Hrm. eexists. split; [reflexivity|].
    set (res1 := filter (kept (Dir m es)) resc).
    apply wf_Dir in Hwf. destruct Hwf as [Hnames Hwfs].
    (* every iteration of a second copy leaves the replica alone *)
    assert (Hnoop : forall e, In e es -> forall t2,
              let o := copy_item clock (sync_folders clock) p e (Dir rm1 res1) t2 in
              fs o = Dir rm1 res1 /\ tick o = t2 /\ raised o = None /\
              Forall quiet (log o)).
    { intros e He t2.
      destruct (copy_files_effect clock (sync_folders clock) p es Hnames
                  (Dir rm0 res0) t0 Hoc e He) as (st' & t' & H1 & H2 & H3 & H4).
      destruct st' as [|rms ress]; [discriminate|].
      assert (Hl : lookup (fst e) res1 =
                   lookup (fst e)
                     (entries (fs (copy_item clock (sync_folders clock) p e
                                     (Dir rms ress) t')))).
      { unfold res1. rewrite lookup_filter_kept.
        replace (child_exists (Dir m es) (fst e)) with true
          by (symmetry; apply child_exists_listed; now apply in_map).
        fold (copy_files clock p es (Dir rm0 res0) t0) in H4.
        rewrite Hfsc in H4. exact H4. }
      destruct e as [item [c fm | sm ses]]; cbn [fst entries] in *.
      - rewrite copy_item_file in Hl by assumption.
        cbn zeta.
        rewrite (copy_item_file_settled clock (sync_folders clock) p item c fm
                   rms ress t' rm1 res1 H3 Hl t2).
        repeat split. constructor.
      - destruct (copy_item_dir clock (sync_folders clock) p item sm ses rms ress t')
          as [Hra Hch].
        rewrite H3 in Hra. symmetry in Hra.
        rewrite Forall_forall in IH, Hwfs.
        pose proof (IH _ He (Hwfs _ He)) as IHe. cbn [snd] in IHe.
        destruct (IHe (p ++ [item]) (lookup item ress) t' Hra)
          as (child & Hc & Hset).
        specialize (Hch child Hc). rewrite <- Hl in Hch.
        cbn zeta. unfold copy_item. rewrite Hch.
        destruct (Hset t2) as (S1 & S2 & S3 & S4).
        rewrite S1, S2, S3, (set_lookup _ _ _ Hch). repeat split. exact S4. }
    intros t2. cbn zeta.
    destruct (up_to_date (Dir m es) (Dir rm1 res1)) eqn:Hup2.
    + rewrite sync_folders_shortcut by exact Hup2.
      cbn [ensure_replica]; out_simpl; cbn [app].
      repeat split; repeat constructor.
    + pose proof (sync_folders_phases clock (Dir m es) p (Some (Dir rm1 res1)) t2 Hup2)
        as Hph2.
      cbv zeta in Hph2. cbn [ensure_replica] in Hph2. out_simpl.
      cbn [fs tick log ret] in Hph2.
      destruct (for_each_noop (copy_item clock (sync_folders clock) p) es
                  (Dir rm1 res1) Hnoop t2) as (C1 & C2 & C3 & C4).
      fold (copy_files_with clock (sync_folders clock) p es) in C1, C2, C3, C4.
      fold (copy_files clock p es) in C1, C2, C3, C4.
      rewrite C3, C1, C2 in Hph2.
      rewrite remove_files_noop in Hph2.
      2:{ intros e He. apply filter_In in He. tauto. }
      destruct Hph2 as (P1 & P2 & P3 & P4).
      rewrite P1, P2, P3, P4. out_simpl. repeat split.
      constructor; [now apply quiet_here|].
      apply Forall_app. split; [assumption | constructor].
Qed.

(** C6 (amended). When a pass over a well-formed source completes
    without error, a second pass over the same source and the replica
    the first one left completes too, changes nothing in the replica,
    and logs neither a copy nor a removal. *)
Theorem second_pass_is_quiet clock source p replica t t2
  (Hwf : wf source)
  (Hok : raised (sync_folders clock source p replica t) = None) :
  let o1 := sync_folders clock source p replica t in
  let o2 := sync_folders clock source p (fs o1) t2 in
  raised o2 = None /\ fs o2 = fs o1 /\
  forall ev, In ev (log o2) -> is_copy ev = false /\ is_removal ev = false.
Proof.
  cbn zeta.
  destruct (sync_settles clock source Hwf p replica t Hok) as (r1 & Hfs & Hset).
  rewrite Hfs. destruct (Hset t2) as (S1 & S2 & S3 & S4).
  repeat split; try assumption; rewrite Forall_forall in S4; now apply S4.
Qed.

(** ** Concrete runs *)

(** C1, counterexample. Both passes complete without error.  In the
    first, the source file [a.txt] holds "new" and the replica keeps
    "old", and the replica entry [d/stale], absent from the source, is
    still there.  In the second the pass is cut short and the replica
    entry [stale], absent from the source, is still there. *)
Lemma convergence_counterexample :
  (let o := sync wall_clock (Some older_source) (Some newer_replica) 0 in
   raised o = None /\
   file_at older_source ["a.txt"] = Some "new" /\
   node_at older_source ["d"; "stale"] = None /\
   exists r, fs o = Some r /\
             file_at r ["a.txt"] = Some "old" /\
             node_at r ["d"; "stale"] = Some (Dir 0 [])) /\
  (let o := sync wall_clock (Some empty_source) (Some cluttered_replica) 0 in
   raised o = None /\
   node_at empty_source ["stale"] = None /\
   exists r, fs o = Some r /\ node_at r ["stale"] = Some (Dir 0 [])).
Proof.
  split; vm_compute; repeat split; eexists; repeat split.
Qed.

Lemma sync_converges_where_it_copies_witness :
  exists rm' res',
    fs (sync wall_clock (Some small_source) (Some lagging_replica) 0)
    = Some (Dir rm' res') /\
    lookup "a" res' = Some (File "x" 1) /\
    lookup "b" res' = Some (File "y" 7) /\
    forall name, In name (listdir res') -> In name (listdir (entries small_source)).
Proof.
  destruct (sync_converges_where_it_copies wall_clock 5 (entries small_source)
              [] (Some lagging_replica) 0)
    as (rm' & res' & H1 & H2 & _ & H4).
  - wf_tac.
  - vm_compute. reflexivity.
  - vm_compute. reflexivity.
  - exists rm', res'. split; [exact H1|]. repeat split; [| |exact H4].
    + apply (H2 "a" "x" 1%Z). right. right. now left.
    + apply (H2 "b" "y" 1%Z). now left.
Defined.

(** C2, counterexample. The two directories have the same tree digest,
    yet the first has a file at [a] and the second has not. *)
Lemma digest_equality_counterexample :
  calculate_folder_md5 (Some two_files) = calculate_folder_md5 (Some one_file) /\
  file_at two_files ["a"] = Some "x" /\
  file_at one_file ["a"] = None.
Proof. vm_compute. repeat split. Qed.

Lemma same_files_same_digest_witness :
  calculate_folder_md5 (Some two_files_and_dirs) =
  calculate_folder_md5 (Some two_files).
Proof.
  apply (same_files_same_digest two_files_and_dirs two_files).
  - wf_tac.
  - wf_tac.
  - intros [|n q]; [reflexivity|].
    unfold two_files_and_dirs, two_files. cbn [file_at lookup].
    destruct (String.eqb_spec "b" n) as [<-|Hb].
    { cbn. destruct q; reflexivity. }
    destruct (String.eqb_spec "e" n) as [<-|He].
    { cbn [String.eqb Ascii.eqb Bool.eqb].
      destruct q as [|k q]; [reflexivity|]. cbn [file_at lookup].
      destruct (String.eqb_spec "k" k) as [<-|Hk]; [|reflexivity].
      destruct q as [|k' q]; reflexivity. }
    destruct (String.eqb_spec "a" n) as [<-|Ha];
      [cbn; destruct q; reflexivity | reflexivity].
Defined.

Lemma copy_failure_precedes_pruning_witness :
  let o := sync wall_clock (Some small_source) (Some clashing_replica) 0 in
  raised o = Some IsADirectoryError /\
  (forall name, In name (listdir (entries clashing_replica)) ->
                exists r, fs o = Some r /\ In name (listdir (entries r))) /\
  forall ev item, In ev (log o) -> is_removal ev = true -> ev_path ev <> [] ++ [item].
Proof.
  destruct (copy_failure_precedes_pruning wall_clock 5 (entries small_source)
              [] (Some clashing_replica) 0) as [_ H].
  - vm_compute. reflexivity.
  - destruct (H IsADirectoryError) as (H1 & H2 & _ & H4 & H5).
    + vm_compute. reflexivity.
    + cbn zeta. split; [exact H1|]. split; [|exact H5].
      intros name Hn. eexists. split; [exact H2|]. now apply H4.
Defined.

(** C6, counterexample. The first pass raises while it copies into [d],
    after it has created [d/e]; the second pass finds [d] up to date,
    goes on, and copies [z]. *)
Lemma idempotence_counterexample :
  let o1 := sync wall_clock (Some retried_source) (Some retried_replica) 0 in
  let o2 := sync wall_clock (Some retried_source) (fs o1) (tick o1) in
  raised o1 = Some IsADirectoryError /\
  raised o2 = None /\
  In (CopiedFile "z" ["z"]) (log o2).
Proof. vm_compute. repeat split. right. right. now left. Qed.

Lemma second_pass_is_quiet_witness :
  let o1 := sync wall_clock (Some small_source) (Some lagging_replica) 0 in
  let o2 := sync wall_clock (Some small_source) (fs o1) (tick o1) in
  raised o2 = None /\ fs o2 = fs o1 /\
  forall ev, In ev (log o2) -> is_copy ev = false /\ is_removal ev = false.
Proof.
  apply (second_pass_is_quiet wall_clock small_source [] (Some lagging_replica) 0).
  - wf_tac.
  - vm_compute. reflexivity.
Defined.

(** * Further properties of the code *)

(** ** Reading a file in chunks *)

Lemma string_app_nil s : (s ++ "")%string = s.
Proof. induction s as [|a s IH]; cbn; [reflexivity | now rewrite IH]. Qed.

Lemma string_app_assoc s1 s2 s3 :
  ((s1 ++ s2) ++ s3)%string = (s1 ++ (s2 ++ s3))%string.
Proof. induction s1 as [|a s1 IH]; cbn; [reflexivity | now rewrite IH]. Qed.

Lemma take_drop n : forall s, (take n s ++ drop n s)%string = s.
Proof.
  induction n as [|n IH]; intros [|a s]; cbn [take drop String.append];
    try reflexivity.
  now rewrite IH.
Qed.

Lemma take_empty n s : n <> O -> take n s = EmptyString -> s = EmptyString.
Proof. destruct n; [congruence|]. now destruct s. Qed.

Lemma drop_length n : forall s, String.length (drop n s) <= String.length s.
Proof.
  induction n as [|n IH]; intros [|a s]; cbn [drop String.length]; auto.
Qed.

Lemma drop_shorter n s :
  n <> O -> s <> EmptyString -> String.length (drop n s) < String.length s.
Proof.
  destruct n; [congruence|]. destruct s as [|a s]; [congruence|].
  intros _ _. cbn [drop String.length]. pose proof (drop_length n s). lia.
Qed.

Lemma read_chunks_all fuel :
  forall f h,
    String.length f < fuel ->
    read_chunks fuel f h = Hashlib.update h f.
Proof.
  unfold Hashlib.update.
  induction fuel as [|fuel IH]; intros f h Hlen; [lia|].
  cbn [read_chunks].
  destruct (String.eqb_spec (take 4096 f) "") as [E|E].
  - apply take_empty in E; [|discriminate]. subst f.
    now rewrite string_app_nil.
  - unfold Hashlib.update. rewrite IH.
    + now rewrite string_app_assoc, take_drop.
    + assert (String.length (drop 4096 f) < String.length f); [|lia].
      apply drop_shorter; [discriminate|]. intros ->. now apply E.
Qed.

Lemma calculate_md5_whole_content_aux (file : string) :
  calculate_md5 file = MD5.hexdigest file.
Proof.
  unfold calculate_md5. rewrite read_chunks_all by lia. reflexivity.
Qed.

(** X1. Reading in chunks of 4096 bytes is transparent: the digest of a
    file is the MD5 of its whole content, whatever its length. *)
Theorem calculate_md5_whole_content (file : string) :
  calculate_md5 file = MD5.hexdigest file.
Proof. exact (calculate_md5_whole_content_aux file). Qed.

(** ** The shape of a digest *)

Lemma le_bytes_length n : forall x, List.length (MD5.le_bytes n x) = n.
Proof. induction n as [|n IH]; intros x; cbn; [reflexivity | now rewrite IH]. Qed.

Lemma hex_bytes_length bs :
  String.length (MD5.hex_bytes bs) = 2 * List.length bs.
Proof.
  induction bs as [|b bs IH]; [reflexivity|].
  cbn [MD5.hex_bytes String.length List.length]. rewrite IH. lia.
Qed.

Lemma hexdigest_length s : String.length (MD5.hexdigest s) = 32.
Proof.
  unfold MD5.hexdigest, MD5.digest_bytes. rewrite hex_bytes_length.
  rewrite !length_app, !le_bytes_length. reflexivity.
Qed.

(** X2. Every file digest and every tree digest is a string of 32
    characters. *)
Theorem digests_have_32_characters :
  (forall file, String.length (calculate_md5 file) = 32) /\
  (forall folder, String.length (calculate_folder_md5 folder) = 32).
Proof.
  split; intros x.
  - rewrite calculate_md5_whole_content_aux. apply hexdigest_length.
  - unfold calculate_folder_md5, Hashlib.hexdigest. apply hexdigest_length.
Qed.

(** ** Sorting and the listing order *)

Lemma insert_permutation x l : Permutation (x :: l) (insert x l).
Proof.
  induction l as [|y l IH]; cbn [insert]; [reflexivity|].
  destruct (String.leb x y); [reflexivity|].
  rewrite perm_swap. now apply perm_skip.
Qed.

(** X3. [sort], the model of [list.sort()] on names, returns its input
    rearranged in ascending byte-wise order. *)
Theorem sort_is_ascending_permutation (l : list string) :
  ascending (sort l) /\ Permutation l (sort l).
Proof.
  split; [apply sort_ascending|].
  induction l as [|x l IH]; cbn [sort]; [reflexivity|].
  rewrite <- insert_permutation. now apply perm_skip.
Qed.

Lemma lookup_permutation es es' name :
  NoDup (listdir es) -> Permutation es es' -> lookup name es = lookup name es'.
Proof.
  intros Hnd Hp.
  assert (Hnd' : NoDup (listdir es')).
  { eapply Permutation_NoDup; [|exact Hnd]. now apply Permutation_map. }
  destruct (lookup name es) as [c|] eqn:E.
  - symmetry. apply In_lookup; [assumption|].
    eapply Permutation_in; [exact Hp|]. now apply lookup_In.
  - symmetry. apply lookup_None. apply lookup_None in E.
    intros Hin. apply E. eapply Permutation_in; [|exact Hin].
    apply Permutation_map. now symmetry.
Qed.

(** X4. The tree digest of a directory depends neither on the order in
    which the file system lists its entries nor on its modification
    time. *)
Theorem digest_ignores_listing_order m m' es es'
  (Hwf : wf (Dir m es))
  (Hperm : Permutation es es') :
  calculate_folder_md5 (Some (Dir m es)) = calculate_folder_md5 (Some (Dir m' es')).
Proof.
  pose proof Hwf as Hwf0. apply wf_Dir in Hwf. destruct Hwf as [Hnd Hall].
  assert (Hwf' : wf (Dir m' es')).
  { apply wf_Dir. split.
    - eapply Permutation_NoDup; [|exact Hnd]. now apply Permutation_map.
    - eapply Permutation_Forall; eassumption. }
  unfold calculate_folder_md5. rewrite !walk_is_preorder.
  rewrite (spec_preorder_files_only (Dir m es) Hwf0 (Dir m' es') Hwf');
    [reflexivity|].
  intros [|n q]; [reflexivity|].
  rewrite !file_at_child. now rewrite (lookup_permutation es es' n Hnd Hperm).
Qed.

Lemma digest_ignores_listing_order_witness :
  calculate_folder_md5
    (Some (Dir 1 [("b", File "y" 3); ("a", File "x" 2)])) =
  calculate_folder_md5
    (Some (Dir 7 [("a", File "x" 2); ("b", File "y" 3)])).
Proof.
  apply (digest_ignores_listing_order 1 7
           [("b", File "y" 3); ("a", File "x" 2)]
           [("a", File "x" 2); ("b", File "y" 3)]).
  - wf_tac.
  - apply perm_swap.
Defined.

(** ** What the synchroniser always does, and never does *)

Lemma remove_files_kind clock source p st t :
  is_dir (fs (remove_files clock source p st t)) = is_dir st.
Proof.
  destruct st as [c m | rm res]; [reflexivity|].
  destruct (remove_files_effect clock source p rm res t) as (_ & [rm' ->] & _).
  reflexivity.
Qed.

(** X5. Whatever the source and whether the call completes or raises,
    the replica path holds something when [sync_folders] returns; when
    nothing was there, it now holds a directory and the first event
    logged is its creation. *)
Theorem replica_exists_after_sync clock (source replica : option node) (t : nat) :
  let o := sync clock source replica t in
  exists r,
    fs o = Some r /\
    (replica = None ->
     is_dir r = true /\ exists rest, log o = CreatingFolder [] :: rest).
Proof.
  cbn zeta. destruct source as [s|].
  2:{ destruct replica as [r|]; cbn; eexists; split; try reflexivity.
      - discriminate.
      - intros _. split; [reflexivity | now eexists]. }
  unfold sync.
  destruct (up_to_date s (fs (ensure_replica clock [] replica t))) eqn:Hup.
  - rewrite sync_folders_shortcut by assumption. out_simpl.
    eexists. split; [reflexivity|]. intros ->. cbn. split; [reflexivity | now eexists].
  - pose proof (sync_folders_phases clock s [] replica t Hup) as H.
    cbv zeta in H.
    set (oc := match s with
               | File _ _ => raise NotADirectoryError _ _
               | Dir _ es => copy_files clock [] es _ _
               end) in *.
    assert (Hkc : is_dir (fs oc) = is_dir (fs (ensure_replica clock [] replica t))).
    { unfold oc. destruct s; [reflexivity | apply copy_files_kind]. }
    destruct (raised oc); destruct H as (Hfs & _ & _ & Hlog);
      rewrite Hfs, Hlog; eexists; (split; [reflexivity|]); intros ->;
      rewrite ?remove_files_kind, Hkc; cbn; (split; [reflexivity | now eexists]).
Qed.

(** X6. [copy_files] never deletes: whether it completes or raises,
    every name listed in the replica directory is still listed, every
    replica entry whose name is not in the source listing is exactly as
    it was, and the replica path is of the kind it was. *)
Theorem copy_files_never_deletes clock p es st t :
  let o := copy_files clock p es st t in
  (forall name, In name (listdir (entries st)) ->
                In name (listdir (entries (fs o)))) /\
  (forall name, ~ In name (listdir es) ->
                lookup name (entries (fs o)) = lookup name (entries st)) /\
  is_dir (fs o) = is_dir st.
Proof.
  cbn zeta. repeat split.
  - apply copy_files_names.
  - apply copy_files_other.
  - apply copy_files_kind.
Qed.

Lemma copy_files_never_deletes_witness :
  let o := copy_files wall_clock [] (entries small_source) clashing_replica 0 in
  In "q" (listdir (entries (fs o))) /\
  lookup "q" (entries (fs o)) = Some (File "" 0).
Proof.
  destruct (copy_files_never_deletes wall_clock [] (entries small_source)
              clashing_replica 0) as (H1 & H2 & _).
  split.
  - apply H1. cbn. tauto.
  - rewrite H2; [reflexivity|]. cbn. intuition discriminate.
Defined.

(** X7. Every event of a pass over the pair at [p] is about [p] or a
    path below it, and the copies and removals are about paths strictly
    below [p]. *)
Theorem events_stay_below_the_pair clock source p replica t ev :
  In ev (log (sync_folders clock source p replica t)) ->
  exists suffix,
    ev_path ev = p ++ suffix /\
    (is_copy ev || is_removal ev = true -> suffix <> []).
Proof.
  intros Hev.
  pose proof (sync_within clock source p replica t) as H.
  rewrite Forall_forall in H. exact (H ev Hev).
Qed.

Lemma events_stay_below_the_pair_witness :
  exists suffix,
    ev_path (CopiedFile "z" ["d"; "z"]) = ["d"] ++ suffix /\
    (is_copy (CopiedFile "z" ["d"; "z"]) || is_removal (CopiedFile "z" ["d"; "z"]) = true ->
     suffix <> []).
Proof.
  apply (events_stay_below_the_pair wall_clock
           (Dir 2 [("z", File "q" 1); ("e", Dir 1 [])]) ["d"] None 2).
  vm_compute. right. right. now left.
Defined.

Lemma source_file_changes_nothing_aux clock c m p r t :
  let o := sync_folders clock (File c m) p (Some r) t in
  fs o = Some r /\ tick o = t /\
  ((raised o = None /\ log o = [NoUpdatesNeeded p]) \/
   (raised o = Some NotADirectoryError /\ log o = [SyncFolder p])).
Proof.
  cbn zeta.
  destruct (up_to_date (File c m) (fs (ensure_replica clock p (Some r) t))) eqn:Hup.
  - rewrite sync_folders_shortcut by assumption. cbn. auto.
  - pose proof (sync_folders_phases clock (File c m) p (Some r) t Hup) as H.
    cbv zeta in H. cbn [raised raise] in H.
    destruct H as (-> & -> & -> & ->). cbn. auto.
Qed.

(** X8. When the source path is a regular file, [sync_folders] leaves an
    existing replica exactly as it was: either the pair passes the
    up-to-date test and "no updates needed" is logged, or
    [os.listdir(source)] raises right after "sync folder" was logged. *)
Theorem source_file_changes_nothing clock c m p r t :
  let o := sync_folders clock (File c m) p (Some r) t in
  fs o = Some r /\ tick o = t /\
  ((raised o = None /\ log o = [NoUpdatesNeeded p]) \/
   (raised o = Some NotADirectoryError /\ log o = [SyncFolder p])).
Proof. exact (source_file_changes_nothing_aux clock c m p r t). Qed.

(** X9. Pruning twice is pruning once: on the replica directory that
    [remove_files] left, a second [remove_files] against the same source
    deletes nothing, logs nothing and raises nothing. *)
Theorem remove_files_idempotent clock source p rm res t :
  let o := remove_files clock source p (Dir rm res) t in
  remove_files clock source p (fs o) (tick o) = ret (fs o) (tick o).
Proof.
  cbn zeta.
  destruct (remove_files_effect clock source p rm res t) as (_ & [rm' ->] & _).
  apply remove_files_noop. intros e He. apply filter_In in He. tauto.
Qed.

(** X10. After a completed pass that was not cut short, the replica
    directory lists exactly the names that the source directory lists. *)
Theorem full_pass_same_names clock m es p replica t
  (Hnames : NoDup (listdir es))
  (Hfull : up_to_date (Dir m es) (fs (ensure_replica clock p replica t)) = false)
  (Hok : raised (sync_folders clock (Dir m es) p replica t) = None) :
  exists rm' res',
    fs (sync_folders clock (Dir m es) p replica t) = Some (Dir rm' res') /\
    forall name, In name (listdir res') <-> In name (listdir es).
Proof.
  destruct (full_pass_effect clock m es p replica t Hnames Hfull Hok)
    as (rm' & res' & Hfs & Hfile & Hdir & Hsub).
  exists rm', res'. split; [assumption|]. intros name. split; [apply Hsub|].
  intros Hin. apply in_map_iff in Hin. destruct Hin as [[n s] [<- He]].
  cbn [fst]. destruct s as [c fm | sm ses].
  - specialize (Hfile n c fm He).
    destruct (lookup n (entries (fs (ensure_replica clock p replica t))))
      as [[c' fm' | dm des]|] eqn:Hold; cbn [stale] in Hfile;
      repeat match type of Hfile with
             | context [if ?b then _ else _] => destruct b
             end;
      eapply lookup_Some_listed; eassumption.
  - destruct (Hdir n sm ses He) as (t' & _ & Hl).
    destruct (sync_fs_some clock (Dir sm ses) (p ++ [n])
                (lookup n (entries (fs (ensure_replica clock p replica t)))) t')
      as [child Hc].
    rewrite Hc in Hl. eapply lookup_Some_listed; eassumption.
Qed.

Lemma full_pass_same_names_witness :
  exists rm' res',
    fs (sync wall_clock (Some small_source) (Some lagging_replica) 0)
    = Some (Dir rm' res') /\
    forall name, In name (listdir res') <-> In name (listdir (entries small_source)).
Proof.
  apply (full_pass_same_names wall_clock 5 (entries small_source) []
           (Some lagging_replica) 0).
  - wf_tac.
  - vm_compute. reflexivity.
  - vm_compute. reflexivity.
Defined.

(** ** No change without an event *)

Lemma silent_app (l1 l2 : list event) :
  (forall ev, In ev (l1 ++ l2) -> is_mutation ev = false) ->
  (forall ev, In ev l1 -> is_mutation ev = false) /\
  (forall ev, In ev l2 -> is_mutation ev = false).
Proof.
  intros H. split; intros ev Hev; apply H; apply in_or_app; auto.
Qed.

Lemma for_each_silent {A T} (body : A -> T -> nat -> out T) l :
  (forall a, In a l -> forall st t,
      (forall ev, In ev (log (body a st t)) -> is_mutation ev = false) ->
      fs (body a st t) = st /\ tick (body a st t) = t) ->
  forall st t,
    (forall ev, In ev (log (for_each body l st t)) -> is_mutation ev = false) ->
    fs (for_each body l st t) = st /\ tick (for_each body l st t) = t.
Proof.
  induction l as [|a l IH]; intros Hb st t Hs; [split; reflexivity|].
  rewrite for_each_cons in *. unfold and_then in *.
  destruct (raised (body a st t)); cbn [fs tick log] in *.
  - now apply Hb; [left|].
  - apply silent_app in Hs. destruct Hs as [Hs1 Hs2].
    destruct (Hb a (or_introl eq_refl) st t Hs1) as [E1 E2].
    rewrite E1, E2 in *.
    apply IH; [|assumption]. intros a' Ha'. apply Hb. now right.
Qed.

Lemma remove_files_silent clock source p st t :
  (forall ev, In ev (log (remove_files clock source p st t)) ->
              is_mutation ev = false) ->
  fs (remove_files clock source p st t) = st /\
  tick (remove_files clock source p st t) = t.
Proof.
  destruct st as [c m | rm res]; [split; reflexivity|].
  intros Hs.
  destruct (remove_files_effect clock source p rm res t) as (_ & _ & Hlog).
  rewrite Hlog in Hs.
  rewrite remove_files_noop; [split; reflexivity|].
  intros e He. destruct (kept source e) eqn:Hk; [reflexivity|].
  assert (Hin : In (removal_event p e)
                  (map (removal_event p)
                     (filter (fun e => negb (kept source e)) res))).
  { apply in_map. apply filter_In. now rewrite Hk. }
  apply Hs in Hin. unfold removal_event in Hin.
  destruct (is_dir (snd e)); discriminate.
Qed.

Lemma sync_silent clock source :
  forall p replica t,
    (forall ev, In ev (log (sync_folders clock source p replica t)) ->
                is_mutation ev = false) ->
    fs (sync_folders clock source p replica t) = replica /\
    tick (sync_folders clock source p replica t) = t.
Proof.
  induction source as [c m | m es IH] using node_induction;
    intros p replica t Hs.
  - destruct replica as [r|].
    2:{ specialize (Hs (CreatingFolder p)). rewrite sync_folders_eq in Hs.
        cbn [ensure_replica] in Hs. unfold and_then in Hs. out_simpl.
        cbn [raised info fs tick log] in Hs.
        assert (is_mutation (CreatingFolder p) = false); [|discriminate].
        apply Hs. destruct (up_to_date _ _); cbn; auto. }
    destruct (source_file_changes_nothing_aux clock c m p r t) as (-> & -> & _).
    split; reflexivity.
  - destruct replica as [r|].
    2:{ specialize (Hs (CreatingFolder p)). rewrite sync_folders_eq in Hs.
        cbn [ensure_replica] in Hs. unfold and_then in Hs.
        cbn [raised info fs tick log] in Hs.
        assert (is_mutation (CreatingFolder p) = false); [|discriminate].
        apply Hs. destruct (up_to_date _ _); cbn.
        - auto.
        - match goal with |- _ \/ In _ (?l) => idtac end. auto. }
    destruct (up_to_date (Dir m es) (fs (ensure_replica clock p (Some r) t))) eqn:Hup.
    { rewrite sync_folders_shortcut by assumption. split; reflexivity. }
    pose proof (sync_folders_phases clock (Dir m es) p (Some r) t Hup) as Hph.
    cbv zeta in Hph. cbn [ensure_replica fs tick log ret] in Hph.
    assert (Hcopy : (forall ev, In ev (log (copy_files clock p es r t)) ->
                                is_mutation ev = false) ->
                    fs (copy_files clock p es r t) = r /\
                    tick (copy_files clock p es r t) = t).
    { apply (for_each_silent (copy_item clock (sync_folders clock) p) es).
      intros [n s] Ha st t' Hsil. unfold copy_item in *.
      destruct st as [fc fm | rm res]; [split; reflexivity|].
      destruct s as [c fm | sm ses].
      - destruct (lookup n res) as [[c' fm' | dm des]|].
        + destruct (fm' <? fm)%Z; [|split; reflexivity].
          destruct (negb _); [|split; reflexivity].
          specialize (Hsil _ (or_introl eq_refl)). discriminate.
        + destruct (dm <? fm)%Z; split; reflexivity.
        + specialize (Hsil _ (or_introl eq_refl)). discriminate.
      - cbn [fs tick log] in *.
        rewrite Forall_forall in IH. pose proof (IH _ Ha) as IHa.
        cbn [snd] in IHa.
        destruct (IHa (p ++ [n]) (lookup n res) t' Hsil) as [E1 E2].
        rewrite E1, E2. destruct (lookup n res) as [child|] eqn:Hl.
        + now rewrite (set_lookup _ _ _ Hl).
        + destruct (sync_fs_some clock (Dir sm ses) (p ++ [n]) None t')
            as [x Hx]. congruence. }
    destruct (raised (copy_files clock p es r t)).
    + destruct Hph as (Hfs & Ht & _ & Hlog). rewrite Hlog in Hs.
      cbn [app] in Hs.
      assert (Hs' : forall ev, In ev (log (copy_files clock p es r t)) ->
                               is_mutation ev = false)
        by (intros ev Hev; apply Hs; now right).
      destruct (Hcopy Hs') as [E1 E2]. rewrite Hfs, Ht, E1, E2. now split.
    + destruct Hph as (Hfs & Ht & _ & Hlog). rewrite Hlog in Hs.
      cbn [app] in Hs.
      assert (Hs' : forall ev,
                 In ev (log (copy_files clock p es r t) ++
                        log (remove_files clock (Dir m es) p
                               (fs (copy_files clock p es r t))
                               (tick (copy_files clock p es r t)))) ->
                 is_mutation ev = false)
        by (intros ev Hev; apply Hs; now right).
      apply silent_app in Hs'. destruct Hs' as [Hs1 Hs2].
      destruct (Hcopy Hs1) as [E1 E2]. rewrite E1, E2 in *.
      destruct (remove_files_silent clock (Dir m es) p r t Hs2) as [R1 R2].
      rewrite Hfs, Ht, R1, R2. now split.
Qed.

(** X11. No change goes unrecorded: a pass whose log holds no
    folder-created, copy or removal event, whether it completed or
    raised, has left the replica exactly as it found it. *)
Theorem silent_pass_changes_nothing clock source p replica t
  (Hsilent : forall ev, In ev (log (sync_folders clock source p replica t)) ->
                        is_mutation ev = false) :
  fs (sync_folders clock source p replica t) = replica.
Proof. exact (proj1 (sync_silent clock source p replica t Hsilent)). Qed.

Lemma silent_pass_changes_nothing_witness :
  fs (sync_folders wall_clock older_source [] (Some newer_replica) 0)
  = Some newer_replica.
Proof.
  apply (silent_pass_changes_nothing wall_clock older_source []
           (Some newer_replica) 0).
  vm_compute. intros ev H.
  repeat (destruct H as [<-|H]; [reflexivity|]). destruct H.
Defined.

(** ** The loop of [main] *)

(** X12. Once a pass over a well-formed source has completed, every
    further pass of the loop over the same source completes, leaves the
    replica as it is, and logs no error, no copy and no removal. *)
Theorem steady_state clock source replica t (n : nat)
  (Hwf : wf source)
  (Hok : raised (sync clock (Some source) replica t) = None) :
  let o := sync clock (Some source) replica t in
  exists records,
    main_loop clock (repeat (Some source) n) (fs o) (tick o)
    = (fs o, tick o, records) /\
    Forall calm records.
Proof.
  cbn zeta. unfold sync in *.
  destruct (sync_settles clock source Hwf [] replica t Hok) as (r1 & Hfs & Hset).
  rewrite Hfs. generalize (tick (sync_folders clock source [] replica t)).
  intros t1. induction n as [|n IH].
  - exists []. split; [reflexivity | constructor].
  - destruct IH as (records & Hloop & Hcalm).
    destruct (Hset t1) as (S1 & S2 & S3 & S4).
    cbn [repeat main_loop]. unfold main_pass, sync.
    rewrite S1, S2, S3, Hloop. eexists. split; [reflexivity|].
    constructor; [exact I|]. apply Forall_app. split; [|assumption].
    apply Forall_app. split; [|repeat constructor].
    apply Forall_forall. intros rec Hrec. apply in_map_iff in Hrec.
    destruct Hrec as [ev [<- Hev]]. rewrite Forall_forall in S4.
    exact (S4 ev Hev).
Qed.

Lemma steady_state_witness :
  let o := sync wall_clock (Some small_source) (Some lagging_replica) 0 in
  exists records,
    main_loop wall_clock (repeat (Some small_source) 3) (fs o) (tick o)
    = (fs o, tick o, records) /\
    Forall calm records.
Proof.
  apply (steady_state wall_clock small_source (Some lagging_replica) 0 3).
  - wf_tac.
  - vm_compute. reflexivity.
Defined.

(** X13. A source path that does not exist never costs the replica
    anything: however many passes the loop makes, an existing replica
    stays exactly as it was, and every pass logs its start and a
    file-not-found error. *)
Theorem missing_source_spares_replica clock r t (n : nat) :
  main_loop clock (repeat None n) (Some r) t
  = (Some r, t, List.concat (repeat [Starting; FileNotFoundLogged] n)).
Proof.
  induction n as [|n IH]; [reflexivity|].
  cbn [repeat main_loop List.concat]. unfold main_pass. cbn [sync].
  cbn [ensure_replica and_then ret raise raised fs tick log].
  now rewrite IH.
Qed.

(** ** The first pass into a replica that does not exist *)

Lemma only_dirs_no_file t :
  only_dirs t = true -> forall q, file_at t q = None.
Proof.
  induction t as [c m | m es IH] using node_induction; [discriminate|].
  intros Hd [|n q]; [reflexivity|]. rewrite file_at_child.
  destruct (lookup n es) as [c|] eqn:Hl; [|reflexivity].
  apply lookup_In in Hl. rewrite Forall_forall in IH. apply (IH _ Hl).
  cbn [only_dirs] in Hd. rewrite forallb_forall in Hd. apply (Hd _ Hl).
Qed.

Lemma empty_dir_no_file m q : file_at (Dir m []) q = None.
Proof. now destruct q. Qed.

(** Copying a listing of fresh names into a directory raises nothing. *)
Lemma copy_fresh_ok clock p l :
  NoDup (listdir l) ->
  Forall (fun e => is_dir (snd e) = true -> mirrored clock (snd e)) l ->
  forall rm res t,
    (forall n, In n (listdir l) -> lookup n res = None) ->
    raised (copy_files clock p l (Dir rm res) t) = None.
Proof.
  unfold copy_files, copy_files_with.
  induction l as [|[n s] l IH]; intros Hnd Hm rm res t Hfresh; [reflexivity|].
  cbn [listdir map fst] in Hnd. inversion Hnd as [|? ? Hn Hnd']; subst.
  inversion Hm as [|? ? Hs Hm']; subst. cbn [snd] in Hs.
  rewrite for_each_cons.
  assert (Hstep : raised (copy_item clock (sync_folders clock) p (n, s)
                            (Dir rm res) t) = None).
  { unfold copy_item. rewrite (Hfresh n (or_introl eq_refl)).
    destruct s as [c fm | sm ses]; [reflexivity|].
    cbn [raised]. apply (Hs eq_refl). }
  rewrite and_then_ok by assumption. cbn [raised].
  pose proof (copy_item_kind clock (sync_folders clock) p (n, s) (Dir rm res) t)
    as Hk.
  destruct (fs (copy_item clock (sync_folders clock) p (n, s) (Dir rm res) t))
    as [|rm1 res1] eqn:Hst; [discriminate|].
  apply IH; try assumption.
  intros n' Hn'.
  pose proof (copy_item_other clock (sync_folders clock) p (n, s) (Dir rm res) t n')
    as Ho.
  rewrite Hst in Ho. cbn [entries fst] in Ho. rewrite Ho.
  - apply Hfresh. now right.
  - intros ->. contradiction.
Qed.

Lemma sync_mirrors clock source :
  wf source -> digest_shows_files source = true -> is_dir source = true ->
  mirrored clock source.
Proof.
  induction source as [c m | m es IH] using node_induction;
    intros Hwf Hdig Hd; [discriminate|].
  clear Hd. intros p t.
  pose proof Hwf as Hwf0. apply wf_Dir in Hwf0. destruct Hwf0 as [Hnd Hwfs].
  cbn [digest_shows_files] in Hdig. apply andb_prop in Hdig.
  destruct Hdig as [Hhere Hbelow]. rewrite forallb_forall in Hbelow.
  assert (Hm : Forall (fun e => is_dir (snd e) = true -> mirrored clock (snd e)) es).
  { rewrite Forall_forall in *. intros e He Hd.
    apply IH; auto. }
  destruct (up_to_date (Dir m es) (fs (ensure_replica clock p None t))) eqn:Hup.
  - rewrite sync_folders_shortcut by assumption. cbn [raised fs ensure_replica info].
    split; [reflexivity|]. eexists. split; [reflexivity|]. split; [reflexivity|].
    intros q. rewrite empty_dir_no_file. symmetry.
    apply only_dirs_no_file.
    unfold up_to_date in Hup. apply andb_prop in Hup. destruct Hup as [_ Hup].
    cbn [ensure_replica info fs] in Hup.
    destruct (only_dirs (Dir m es)); [reflexivity|].
    cbn [orb] in Hhere. apply String.eqb_eq in Hup.
    assert (E : calculate_folder_md5 (Some (Dir (clock t) [])) =
                calculate_folder_md5 None) by reflexivity.
    rewrite Hup, E, String.eqb_refl in Hhere. discriminate Hhere.
  - pose proof (sync_folders_phases clock (Dir m es) p None t Hup) as Hph.
    cbv zeta in Hph. cbn [ensure_replica info fs tick] in Hph.
    assert (Hoc : raised (copy_files clock p es (Dir (clock t) []) (S t)) = None).
    { apply copy_fresh_ok; auto. }
    rewrite Hoc in Hph. destruct Hph as (Hfs & _ & Hr & _).
    pose proof (copy_files_kind clock (sync_folders clock) p es
                  (Dir (clock t) []) (S t)) as Hk.
    fold (copy_files clock p es (Dir (clock t) []) (S t)) in Hk.
    destruct (fs (copy_files clock p es (Dir (clock t) []) (S t)))
      as [|rmc resc] eqn:Hfsc; [discriminate|].
    destruct (remove_files_effect clock (Dir m es) p rmc resc
                (tick (copy_files clock p es (Dir (clock t) []) (S t))))
      as (Hrr & [rm' Hrm] & _).
    rewrite Hr, Hfs, Hrm. split; [exact Hrr|].
    eexists. split; [reflexivity|]. split; [reflexivity|].
    intros [|n q]; [reflexivity|]. rewrite !file_at_child.
    rewrite lookup_filter_kept. cbn [child_exists].
    destruct (lookup n es) as [s|] eqn:Hl; [|reflexivity].
    apply lookup_In in Hl.
    destruct (copy_files_effect clock (sync_folders clock) p es Hnd
                (Dir (clock t) []) (S t) Hoc (n, s) Hl)
      as (st' & t' & H1 & H2 & H3 & H4).
    destruct st' as [|rms ress]; [discriminate|].
    fold (copy_files clock p es (Dir (clock t) []) (S t)) in H4.
    rewrite Hfsc in H4. cbn [fst entries lookup] in H1, H4. rewrite H4.
    destruct s as [c fm | sm ses].
    + rewrite copy_item_file by assumption. rewrite H1. reflexivity.
    + destruct (copy_item_dir clock (sync_folders clock) p n sm ses rms ress t')
        as [_ Hch].
      rewrite H1 in Hch.
      rewrite Forall_forall in Hm.
      destruct (Hm _ Hl eq_refl (p ++ [n]) t') as (_ & child & Hc & _ & Hq).
      cbn [snd] in Hc, Hq. rewrite (Hch child Hc). apply Hq.
Qed.

(** X14. The first pass into a replica that does not exist mirrors the
    files: for a well-formed source directory in which no directory
    that holds a file has the digest of the empty input, the pass
    completes without error and leaves a replica directory that has, at
    every relative path, a file exactly where the source has one, with
    the same content. *)
Theorem first_pass_mirrors_files clock m es p t
  (Hwf : wf (Dir m es))
  (Hdigest : digest_shows_files (Dir m es) = true) :
  let o := sync_folders clock (Dir m es) p None t in
  raised o = None /\
  exists r, fs o = Some r /\ forall q, file_at r q = file_at (Dir m es) q.
Proof.
  cbn zeta.
  destruct (sync_mirrors clock (Dir m es) Hwf Hdigest eq_refl p t)
    as (H1 & r & H2 & _ & H3).
  split; [exact H1|]. exists r. split; [exact H2 | exact H3].
Qed.

Lemma first_pass_mirrors_files_witness :
  let o := sync wall_clock (Some small_source) None 0 in
  raised o = None /\
  exists r, fs o = Some r /\ forall q, file_at r q = file_at small_source q.
Proof.
  apply (first_pass_mirrors_files wall_clock 5 (entries small_source) [] 0).
  - wf_tac.
  - vm_compute. reflexivity.
Defined.

Lemma replica_exists_after_sync_witness :
  exists r,
    fs (sync wall_clock (Some small_source) None 0) = Some r /\
    is_dir r = true.
Proof.
  destruct (replica_exists_after_sync wall_clock (Some small_source) None 0)
    as (r & Hfs & H).
  exists r. split; [exact Hfs|]. exact (proj1 (H eq_refl)).
Defined.
